(** * forge: workflow model, validator and execution engine

    A shallow embedding of [internal/dsl/validation.go] and
    [internal/runner/runner.go], followed by the properties of the
    validator ([Workflow.Validate], [Stage.Validate], [Step.Validate]) and
    of the engine ([Runner.Run], [Runner.DryRun], [Runner.executeStep]).
    The construction of a runner ([NewRunner] and its options), the
    default command runner ([runCommand]) and the commands of package cmd
    that drive the engine ([runRun], [runDryRun], [runWriteTemplate]) are
    embedded and studied after them.

    Go values are modelled as follows.
    - [string] is a byte string: Rocq's [string].
    - [error] is the interface value; [nil] is [None] in [option error].
    - [int] loop indices are [nat]; the [Seconds] field is a [Z].
    - [time.Duration] is a 64-bit signed count of nanoseconds.
    - The injected collaborators of a [Runner] act on an abstract world
      [W]; every collaborator call is also recorded, in call order, in a
      list of [Event]s, so that ordering properties can be stated.
    - A [Runner] is one that [NewRunner] built: none of its collaborators
      is [nil]. The loader returns a workflow or an error: [Run] and
      [DryRun] read the workflow only when the error is [nil]. *)

From Stdlib Require Import String Ascii List ZArith Lia Bool DecimalString.
Import ListNotations.
Open Scope string_scope.

(** ** The pieces of Go's standard library the code relies on *)

Module Go.

(** [errors.New] and [fmt.Errorf] without [%w] build an [errorString];
    [fmt.Errorf] with one [%w] builds a [wrapError] that keeps the
    formatted message and the wrapped error. *)
Inductive error : Type :=
| errorString (s : string)
| wrapError (msg : string) (err : error).

Definition Error (e : error) : string :=
  match e with
  | errorString s => s
  | wrapError msg _ => msg
  end.

Definition Unwrap (e : error) : option error :=
  match e with
  | errorString _ => None
  | wrapError _ err => Some err
  end.

Definition errors_New (s : string) : error := errorString s.

(** [fmt.Errorf(msg)] where the format has no [%w] verb. *)
Definition Errorf (msg : string) : error := errorString msg.

(** [fmt.Errorf(prefix + "%w", err)]: the message is the prefix followed
    by the message of [err]. *)
Definition Errorf_w (prefix : string) (err : error) : error :=
  wrapError (prefix ++ Error err) err.

(** The innermost error of a chain of [Unwrap]s. *)
Fixpoint root_cause (e : error) : error :=
  match e with
  | errorString _ => e
  | wrapError _ err => root_cause err
  end.

(** The verb [%d] on a non-negative [int]. *)
Definition fmt_d_nat (n : nat) : string :=
  NilEmpty.string_of_uint (Nat.to_uint n).

(** The verb [%d] on an [int]. *)
Definition fmt_d (z : Z) : string :=
  NilZero.string_of_int (Z.to_int z).

(** The verb [%v] on a [[]string]: the elements separated by one space,
    inside square brackets. *)
Definition fmt_v (l : list string) : string :=
  "[" ++ String.concat " " l ++ "]".

(** The line feed of the format strings. *)
Definition nl : string := String (ascii_of_nat 10) EmptyString.

(** Two's complement wrap-around of [int64] arithmetic. *)
Definition wrap64 (z : Z) : Z :=
  ((z + 2 ^ 63) mod 2 ^ 64 - 2 ^ 63)%Z.

(** [time.Second], in nanoseconds. *)
Definition time_Second : Z := 1000000000%Z.

(** [time.Duration(n) * time.Second]. *)
Definition seconds_to_Duration (n : Z) : Z :=
  wrap64 (wrap64 n * time_Second).

End Go.

(** ** Package dsl *)

Module dsl.
Import Go.

(** Modelled from the spec: the declarations of [StepType], [Step],
    [Stage] and [Workflow] and the two [StepType] constants are not among
    the source files. [StepType] is a string type: the tests build one
    with [dsl.StepType("unknown")] and print it with [%s]. *)
Definition StepType : Type := string.

(** Modelled from the spec: the tag [type: exec] of the document schema;
    [TestRunner_Run_Success] expects "STEP 1.1: compile (exec)". *)
Definition StepTypeExec : StepType := "exec".

(** Modelled from the spec: the tag [type: sleep] of the document schema. *)
Definition StepTypeSleep : StepType := "sleep".

(** Modelled from the spec: the fields [validation.go], [runner.go] and
    the tests use, with the types they use them at. *)
Record Step : Type := mkStep {
  Step_Name : string;
  Step_Type : StepType;
  Step_Run : list string;
  Step_Seconds : Z
}.

(** Modelled from the spec: a name and the steps in declared order. *)
Record Stage : Type := mkStage {
  Stage_Name : string;
  Stage_Steps : list Step
}.

(** Modelled from the spec: a name, an optional description and the
    stages in declared order. *)
Record Workflow : Type := mkWorkflow {
  Workflow_Name : string;
  Workflow_Description : string;
  Workflow_Stages : list Stage
}.

(** [func (s *Step) Validate() error] *)
Definition Step_Validate (s : Step) : option error :=
  if Step_Name s =? "" then
    Some (errors_New "step name is required")
  else if Step_Type s =? StepTypeExec then
    if Nat.eqb (length (Step_Run s)) 0 then
      Some (errors_New "exec step requires 'run' command")
    else None
  else if Step_Type s =? StepTypeSleep then
    if (Step_Seconds s <=? 0)%Z then
      Some (errors_New "sleep step requires positive 'seconds' value")
    else None
  else
    Some (Errorf ("unknown step type: " ++ Step_Type s)).

(** The loop [for i, step := range s.Steps] of [Stage.Validate], entered
    at index [i] with [steps] still to visit. *)
Fixpoint Stage_Validate_steps (i : nat) (steps : list Step) : option error :=
  match steps with
  | [] => None
  | step :: rest =>
      match Step_Validate step with
      | Some err =>
          Some (Errorf_w
                  ("step " ++ fmt_d_nat i ++ " (" ++ Step_Name step ++ "): ")
                  err)
      | None => Stage_Validate_steps (S i) rest
      end
  end.

(** [func (s *Stage) Validate() error] *)
Definition Stage_Validate (s : Stage) : option error :=
  if Stage_Name s =? "" then
    Some (errors_New "stage name is required")
  else if Nat.eqb (length (Stage_Steps s)) 0 then
    Some (errors_New "stage must have at least one step")
  else Stage_Validate_steps 0 (Stage_Steps s).

(** The loop [for i, stage := range w.Stages] of [Workflow.Validate]. *)
Fixpoint Workflow_Validate_stages (i : nat) (stages : list Stage)
  : option error :=
  match stages with
  | [] => None
  | stage :: rest =>
      match Stage_Validate stage with
      | Some err =>
          Some (Errorf_w
                  ("stage " ++ fmt_d_nat i ++ " (" ++ Stage_Name stage ++ "): ")
                  err)
      | None => Workflow_Validate_stages (S i) rest
      end
  end.

(** [func (w *Workflow) Validate() error] *)
Definition Workflow_Validate (w : Workflow) : option error :=
  if Workflow_Name w =? "" then
    Some (errors_New "workflow name is required")
  else if Nat.eqb (length (Workflow_Stages w)) 0 then
    Some (errors_New "workflow must have at least one stage")
  else Workflow_Validate_stages 0 (Workflow_Stages w).

End dsl.

(** ** Package runner *)

Module runner.
Import Go dsl.

(** One constructor per [fmt.Fprintf(r.Out, ...)] call site of
    [runner.go], carrying the arguments of the call. *)
Inductive Line : Type :=
| RunStart (path : string)
| RunStage (stage : nat) (name : string)
| RunStep (stage step : nat) (name : string) (type : StepType)
| RunSleeping (seconds : Z)
| RunStageCompleted (stage : nat)
| RunCompleted
| DryStart (path : string)
| DryStage (stage : nat) (name : string)
| DryStep (stage step : nat) (name : string) (type : StepType)
| DryWouldExec (argv : list string)
| DryWouldSleep (seconds : Z)
| DryStageCompleted (stage : nat)
| DryCompleted.

(** The text each call site formats. *)
Definition render (l : Line) : string :=
  match l with
  | RunStart p => "Executing workflow: " ++ p ++ nl
  | RunStage i n =>
      nl ++ "=== STAGE " ++ fmt_d_nat i ++ ": " ++ n ++ " ===" ++ nl
  | RunStep i j n t =>
      "STEP " ++ fmt_d_nat i ++ "." ++ fmt_d_nat j ++ ": " ++ n
        ++ " (" ++ t ++ ")" ++ nl
  | RunSleeping s => "  Sleeping for " ++ fmt_d s ++ " seconds..." ++ nl
  | RunStageCompleted i =>
      "=== STAGE " ++ fmt_d_nat i ++ " COMPLETED ===" ++ nl
  | RunCompleted => nl ++ "✓ Workflow execution completed." ++ nl
  | DryStart p => "[DRY-RUN] Would execute workflow: " ++ p ++ nl
  | DryStage i n =>
      nl ++ "[DRY-RUN] === STAGE " ++ fmt_d_nat i ++ ": " ++ n ++ " ==="
        ++ nl
  | DryStep i j n t =>
      "[DRY-RUN] STEP " ++ fmt_d_nat i ++ "." ++ fmt_d_nat j ++ ": " ++ n
        ++ " (" ++ t ++ ")" ++ nl
  | DryWouldExec argv =>
      "[DRY-RUN]   Would execute command: " ++ fmt_v argv ++ nl
  | DryWouldSleep s =>
      "[DRY-RUN]   Would sleep for " ++ fmt_d s ++ " seconds" ++ nl
  | DryStageCompleted i =>
      "[DRY-RUN] === STAGE " ++ fmt_d_nat i ++ " COMPLETED ===" ++ nl
  | DryCompleted => nl ++ "[DRY-RUN] ✓ Workflow simulation completed." ++ nl
  end.

(** What a run does to the outside, one event per collaborator call. *)
Inductive Event : Type :=
| EvWrite (l : Line)
| EvLoad (path : string) (res : Workflow + error)
| EvRunCmd (argv : list string) (res : option error)
| EvSleep (d : Z).

(** [type Runner struct]: the path and the four injected collaborators,
    each acting on the world [W]. [LoadWorkflow] returns a workflow or
    an error, [RunCmd] an error or [nil], [Sleep] nothing; [Out] is the
    [io.Writer], whose result [fmt.Fprintf]'s callers discard. *)
Record Runner (W : Type) : Type := mkRunner {
  path : string;
  LoadWorkflow : string -> W -> (Workflow + error) * W;
  RunCmd : list string -> W -> option error * W;
  Sleep : Z -> W -> W;
  Out : string -> W -> W
}.
Arguments mkRunner {W}.
Arguments path {W}.
Arguments LoadWorkflow {W}.
Arguments RunCmd {W}.
Arguments Sleep {W}.
Arguments Out {W}.

(** The result of a computation: its value, the world it leaves and the
    events it produced, oldest first. *)
Record Res (W A : Type) : Type := mkRes {
  val : A;
  world : W;
  events : list Event
}.
Arguments mkRes {W A}.
Arguments val {W A}.
Arguments world {W A}.
Arguments events {W A}.

Definition Eff (W A : Type) : Type := W -> Res W A.

Definition ret {W A} (a : A) : Eff W A :=
  fun w => mkRes a w [].

Definition bind {W A B} (m : Eff W A) (f : A -> Eff W B) : Eff W B :=
  fun w =>
    let r1 := m w in
    let r2 := f (val r1) (world r1) in
    mkRes (val r2) (world r2) (events r1 ++ events r2).

Notation "x <- m ;; k" := (bind m (fun x => k))
  (at level 61, m at next level, right associativity).
Notation "m ;; k" := (bind m (fun _ => k))
  (at level 61, right associativity).

Section Engine.
Context {W : Type}.
Variable r : Runner W.

(** [fmt.Fprintf(r.Out, ...)] *)
Definition Fprintf (l : Line) : Eff W unit :=
  fun w => mkRes tt (Out r (render l) w) [EvWrite l].

(** [r.LoadWorkflow(p)] *)
Definition callLoadWorkflow (p : string) : Eff W (Workflow + error) :=
  fun w =>
    let res := LoadWorkflow r p w in
    mkRes (fst res) (snd res) [EvLoad p (fst res)].

(** [r.RunCmd(argv)] *)
Definition callRunCmd (argv : list string) : Eff W (option error) :=
  fun w =>
    let res := RunCmd r argv w in
    mkRes (fst res) (snd res) [EvRunCmd argv (fst res)].

(** [r.Sleep(d)] *)
Definition callSleep (d : Z) : Eff W unit :=
  fun w => mkRes tt (Sleep r d w) [EvSleep d].

(** [func (r *Runner) executeStep(step *dsl.Step) error] *)
Definition executeStep (step : Step) : Eff W (option error) :=
  if Step_Type step =? StepTypeExec then
    err <- callRunCmd (Step_Run step) ;;
    match err with
    | Some e => ret (Some (Errorf_w "command execution failed: " e))
    | None => ret None
    end
  else if Step_Type step =? StepTypeSleep then
    Fprintf (RunSleeping (Step_Seconds step)) ;;
    callSleep (seconds_to_Duration (Step_Seconds step)) ;;
    ret None
  else
    ret (Some (Errorf ("unknown step type: " ++ Step_Type step))).

(** The inner loop of [Run], [for stepIdx, step := range stage.Steps],
    entered at [stepIdx] with [steps] still to run. *)
Fixpoint Run_steps (stageIdx : nat) (stage : Stage) (stepIdx : nat)
         (steps : list Step) : Eff W (option error) :=
  match steps with
  | [] => ret None
  | step :: rest =>
      Fprintf (RunStep (stageIdx + 1) (stepIdx + 1)
                       (Step_Name step) (Step_Type step)) ;;
      err <- executeStep step ;;
      match err with
      | Some e =>
          ret (Some (Errorf_w
                       ("stage '" ++ Stage_Name stage ++ "', step '"
                          ++ Step_Name step ++ "': ")
                       e))
      | None => Run_steps stageIdx stage (S stepIdx) rest
      end
  end.

(** The outer loop of [Run], [for stageIdx, stage := range wf.Stages]. *)
Fixpoint Run_stages (stageIdx : nat) (stages : list Stage)
  : Eff W (option error) :=
  match stages with
  | [] => ret None
  | stage :: rest =>
      Fprintf (RunStage (stageIdx + 1) (Stage_Name stage)) ;;
      err <- Run_steps stageIdx stage 0 (Stage_Steps stage) ;;
      match err with
      | Some e => ret (Some e)
      | None =>
          Fprintf (RunStageCompleted (stageIdx + 1)) ;;
          Run_stages (S stageIdx) rest
      end
  end.

(** [func (r *Runner) Run() error] *)
Definition Run : Eff W (option error) :=
  Fprintf (RunStart (path r)) ;;
  res <- callLoadWorkflow (path r) ;;
  match res with
  | inr err => ret (Some err)
  | inl wf =>
      err <- Run_stages 0 (Workflow_Stages wf) ;;
      match err with
      | Some e => ret (Some e)
      | None => Fprintf RunCompleted ;; ret None
      end
  end.

(** The [switch step.Type] of [DryRun]; it has no [default] branch. *)
Definition DryRun_step (step : Step) : Eff W unit :=
  if Step_Type step =? StepTypeExec then
    Fprintf (DryWouldExec (Step_Run step))
  else if Step_Type step =? StepTypeSleep then
    Fprintf (DryWouldSleep (Step_Seconds step))
  else ret tt.

(** The inner loop of [DryRun]. *)
Fixpoint DryRun_steps (stageIdx stepIdx : nat) (steps : list Step)
  : Eff W unit :=
  match steps with
  | [] => ret tt
  | step :: rest =>
      Fprintf (DryStep (stageIdx + 1) (stepIdx + 1)
                       (Step_Name step) (Step_Type step)) ;;
      DryRun_step step ;;
      DryRun_steps stageIdx (S stepIdx) rest
  end.

(** The outer loop of [DryRun]. *)
Fixpoint DryRun_stages (stageIdx : nat) (stages : list Stage)
  : Eff W unit :=
  match stages with
  | [] => ret tt
  | stage :: rest =>
      Fprintf (DryStage (stageIdx + 1) (Stage_Name stage)) ;;
      DryRun_steps stageIdx 0 (Stage_Steps stage) ;;
      Fprintf (DryStageCompleted (stageIdx + 1)) ;;
      DryRun_stages (S stageIdx) rest
  end.

(** [func (r *Runner) DryRun() error] *)
Definition DryRun : Eff W (option error) :=
  Fprintf (DryStart (path r)) ;;
  res <- callLoadWorkflow (path r) ;;
  match res with
  | inr err => ret (Some err)
  | inl wf =>
      DryRun_stages 0 (Workflow_Stages wf) ;;
      Fprintf DryCompleted ;;
      ret None
  end.

End Engine.

End runner.


(** ** Package runner: construction and the default command runner *)

Module runner_new.
Import Go dsl runner.

(** [type Runner struct] while [NewRunner] fills it: a collaborator field
    may hold [nil], here [None]. *)
Record RunnerFields (W : Type) : Type := mkRunnerFields {
  f_path : string;
  f_LoadWorkflow : option (string -> W -> (Workflow + error) * W);
  f_RunCmd : option (list string -> W -> option error * W);
  f_Sleep : option (Z -> W -> W);
  f_Out : option (string -> W -> W)
}.
Arguments mkRunnerFields {W}.
Arguments f_path {W}.
Arguments f_LoadWorkflow {W}.
Arguments f_RunCmd {W}.
Arguments f_Sleep {W}.
Arguments f_Out {W}.

(** [type Option func(r *Runner)]: what the call leaves in the struct. *)
Definition Option (W : Type) : Type := RunnerFields W -> RunnerFields W.

(** [func WithOut(w io.Writer) Option] *)
Definition WithOut {W} (w : option (string -> W -> W)) : Option W :=
  fun r => mkRunnerFields (f_path r) (f_LoadWorkflow r) (f_RunCmd r)
                          (f_Sleep r) w.

(** [func WithLoadWorkflow(f) Option], for a loader [f] *)
Definition WithLoadWorkflow {W}
           (f : option (string -> W -> (Workflow + error) * W)) : Option W :=
  fun r => mkRunnerFields (f_path r) f (f_RunCmd r) (f_Sleep r) (f_Out r).

(** [func WithRunCmd(f func(argv []string) error) Option] *)
Definition WithRunCmd {W}
           (f : option (list string -> W -> option error * W)) : Option W :=
  fun r => mkRunnerFields (f_path r) (f_LoadWorkflow r) f (f_Sleep r)
                          (f_Out r).

(** [func WithSleep(f func(d time.Duration)) Option] *)
Definition WithSleep {W} (f : option (Z -> W -> W)) : Option W :=
  fun r => mkRunnerFields (f_path r) (f_LoadWorkflow r) (f_RunCmd r) f
                          (f_Out r).

(** The four values [NewRunner] starts from: [dsl.LoadWorkflowFromFile]
    (not among the source files), [runCommand], [time.Sleep] and
    [os.Stdout], as they act on the world. *)
Record Defaults (W : Type) : Type := mkDefaults {
  LoadWorkflowFromFile : string -> W -> (Workflow + error) * W;
  default_RunCmd : list string -> W -> option error * W;
  time_Sleep : Z -> W -> W;
  os_Stdout : string -> W -> W
}.
Arguments mkDefaults {W}.
Arguments LoadWorkflowFromFile {W}.
Arguments default_RunCmd {W}.
Arguments time_Sleep {W}.
Arguments os_Stdout {W}.

(** [func NewRunner(path string, opts ...Option)], which returns the
    runner or an error *)
Definition NewRunner {W} (d : Defaults W) (p : string)
           (opts : list (Option W)) : Runner W + error :=
  let r := fold_left (fun r opt => opt r) opts
                     (mkRunnerFields p (Some (LoadWorkflowFromFile d))
                                     (Some (default_RunCmd d))
                                     (Some (time_Sleep d))
                                     (Some (os_Stdout d))) in
  match f_LoadWorkflow r, f_RunCmd r, f_Sleep r, f_Out r with
  | Some load, Some run, Some sleep, Some out =>
      inl (mkRunner (f_path r) load run sleep out)
  | _, _, _, _ => inr (Errorf "runner not properly configured")
  end.

(** [func runCommand(argv []string) error]. [cmd_Run name args] stands for
    building the command with [exec.CommandContext], binding the standard
    streams and calling [cmd.Run()] under the ten minute deadline. The
    result is [None] when [argv[0]] is out of range, which makes Go
    panic. *)
Definition runCommand {W}
           (cmd_Run : string -> list string -> W -> option error * W)
           (argv : list string) (w : W) : option (option error * W) :=
  match argv with
  | [] => None
  | name :: args => Some (cmd_Run name args w)
  end.

End runner_new.

(** ** Package cmd *)

Module cmd.
Import Go dsl runner runner_new.

Definition workflowEmptyPathErr : error :=
  errors_New "workflow path cannot be empty".
Definition workflowNotFoundErr : error := errors_New "workflow file not found".
Definition runnerCreationErr : error := errors_New "failed to create runner".
Definition workflowExecutionErr : error :=
  errors_New "workflow execution failed".
Definition errFileExists : error := errors_New "file already exists".
Definition errWriteFailed : error :=
  errors_New "failed to write template file".
Definition defaultFileName : string := "workflow.yaml".

(** The error of [os.Stat], as far as the code looks at it: whether
    [os.IsNotExist] holds of it. *)
Inductive StatError : Type :=
| ErrNotExist
| ErrOtherStat.

(** [os.IsNotExist(err)], for the [err] of [os.Stat]; [None] is [nil]. *)
Definition os_IsNotExist (err : option StatError) : bool :=
  match err with
  | Some ErrNotExist => true
  | _ => false
  end.

Section Commands.
Context {W : Type}.

(** [os.Stat(path)], which reads the world and leaves it as it is. *)
Variable os_Stat : string -> W -> option StatError.

(** [func CheckFilePathExistAndIsNotEmpty(path string) error] *)
Definition CheckFilePathExistAndIsNotEmpty (p : string) (w : W)
  : option error :=
  if p =? "" then Some workflowEmptyPathErr
  else if os_IsNotExist (os_Stat p w) then Some workflowNotFoundErr
  else None.

(** [func runRun(workflow string, out io.Writer, newRunner ...) error] *)
Definition runRun (workflow : string) (out : option (string -> W -> W))
           (newRunner : string -> list (Option W) -> W
                        -> (Runner W + error) * W)
  : Eff W (option error) :=
  fun w =>
    match CheckFilePathExistAndIsNotEmpty workflow w with
    | Some err => mkRes (Some err) w []
    | None =>
        let made := newRunner workflow [WithOut out] w in
        match fst made with
        | inr _ => mkRes (Some runnerCreationErr) (snd made) []
        | inl r =>
            let res := Run r (snd made) in
            mkRes (match val res with
                   | Some _ => Some workflowExecutionErr
                   | None => None
                   end)
                  (world res) (events res)
        end
    end.

(** [func runDryRun(workflow string, out io.Writer, newRunner ...) error] *)
Definition runDryRun (workflow : string) (out : option (string -> W -> W))
           (newRunner : string -> list (Option W) -> W
                        -> (Runner W + error) * W)
  : Eff W (option error) :=
  fun w =>
    match CheckFilePathExistAndIsNotEmpty workflow w with
    | Some err => mkRes (Some err) w []
    | None =>
        let made := newRunner workflow [WithOut out] w in
        match fst made with
        | inr _ => mkRes (Some runnerCreationErr) (snd made) []
        | inl r =>
            let res := DryRun r (snd made) in
            mkRes (match val res with
                   | Some _ => Some workflowExecutionErr
                   | None => None
                   end)
                  (world res) (events res)
        end
    end.

(** [runner.NewRunner] as the [newRunner] argument of the two commands. *)
Definition real_NewRunner (d : Defaults W)
  : string -> list (Option W) -> W -> (Runner W + error) * W :=
  fun p opts w => (NewRunner d p opts, w).

(** [dsl.WriteTemplate(fileName)], which is not among the source files. *)
Variable WriteTemplate : string -> W -> option error * W.

(** [func runWriteTemplate(fileName string) error] *)
Definition runWriteTemplate (fileName : string) (w : W) : option error * W :=
  let fileName := if fileName =? "" then defaultFileName else fileName in
  match os_Stat fileName w with
  | None => (Some errFileExists, w)
  | Some _ =>
      let written := WriteTemplate fileName w in
      match fst written with
      | Some _ => (Some errWriteFailed, snd written)
      | None => (None, snd written)
      end
  end.

(** The [RunE] of the command [makeInitCmd] builds, on the arguments that
    [cobra.MaximumNArgs(1)] has let through. *)
Definition initCmd_RunE (args : list string) (w : W) : option error * W :=
  if Nat.eqb (length args) 0 then runWriteTemplate "" w
  else runWriteTemplate (hd "" args) w.

End Commands.

End cmd.

(** ** The collaborators and workflows of runner_test.go *)

Module runner_test.
Import Go dsl runner.

(** What the test doubles record: the argv of each command, the duration of
    each sleep, and the bytes written to the [bytes.Buffer]. *)
Record Mock : Type := mkMock {
  cmdCalls : list (list string);
  sleepCalls : list Z;
  out : string
}.

Definition mock0 : Mock := mkMock [] [] "".

(** [mockLoadWorkflow(stages)] *)
Definition mockLoadWorkflow (stages : list Stage)
  : string -> Mock -> (Workflow + error) * Mock :=
  fun _ m => (inl (mkWorkflow "mock-workflow" "" stages), m).

(** [mockLoadWorkflowError(err)] *)
Definition mockLoadWorkflowError (err : error)
  : string -> Mock -> (Workflow + error) * Mock :=
  fun _ m => (inr err, m).

(** [mockRunCmd(&calls)] *)
Definition mockRunCmd : list string -> Mock -> option error * Mock :=
  fun argv m =>
    (None, mkMock (cmdCalls m ++ [argv]) (sleepCalls m) (out m)).

(** [mockRunCmdError(err)] *)
Definition mockRunCmdError (err : error)
  : list string -> Mock -> option error * Mock :=
  fun _ m => (Some err, m).

(** [mockSleep(&calls)] *)
Definition mockSleep : Z -> Mock -> Mock :=
  fun d m => mkMock (cmdCalls m) (sleepCalls m ++ [d]) (out m).

(** [WithOut(out)] for [out := new(bytes.Buffer)] *)
Definition bufferOut : string -> Mock -> Mock :=
  fun s m => mkMock (cmdCalls m) (sleepCalls m) (out m ++ s).

(** The workflow of [TestRunner_Run_Success]. *)
Definition build_test_stages : list Stage :=
  [ mkStage "build"
      [ mkStep "compile" StepTypeExec ["go"; "build"] 0;
        mkStep "wait" StepTypeSleep [] 2 ];
    mkStage "test"
      [ mkStep "run-tests" StepTypeExec ["go"; "test"] 0 ] ].

(** The runner of [TestRunner_Run_Success]. *)
Definition success_runner : Runner Mock :=
  mkRunner "test-workflow.yaml" (mockLoadWorkflow build_test_stages)
           mockRunCmd mockSleep bufferOut.

(** A runner whose every command fails, over a stage of two commands. *)
Definition two_commands : list Stage :=
  [ mkStage "build"
      [ mkStep "compile" StepTypeExec ["go"; "build"] 0;
        mkStep "link" StepTypeExec ["go"; "install"] 0 ] ].

Definition failing_runner : Runner Mock :=
  mkRunner "test.yaml" (mockLoadWorkflow two_commands)
           (mockRunCmdError (errors_New "command failed"))
           mockSleep bufferOut.



(** The runner of [TestRunner_Run_LoadWorkflowError]. *)
Definition load_error_runner : Runner Mock :=
  mkRunner "test.yaml"
           (mockLoadWorkflowError (errors_New "failed to load workflow"))
           mockRunCmd mockSleep bufferOut.

End runner_test.

(** ** The workflows of the dsl tests *)

Module dsl_test.
Import Go dsl.

(** "valid exec step" and "valid sleep step" of [TestValidateSteps]. *)
Definition valid_exec_step : Step :=
  mkStep "step1" StepTypeExec ["echo"; "Hello"] 0.

Definition valid_sleep_step : Step :=
  mkStep "step2" StepTypeSleep [] 5.

(** "exec step missing run" of [TestValidateSteps]. *)
Definition exec_step_missing_run : Step :=
  mkStep "step4" StepTypeExec [] 0.

(** "valid workflow" of [TestValidateWorkflows]. *)
Definition valid_workflow : Workflow :=
  mkWorkflow "workflow1" "" [ mkStage "stage1" [ valid_exec_step ] ].

(** "workflow with invalid stage" of [TestValidateWorkflows]. *)
Definition workflow_with_invalid_stage : Workflow :=
  mkWorkflow "workflow3" "" [ mkStage "stage2" [] ].

(** A workflow whose first violation is the second step of its second
    stage, and which has a later violation in its third stage. *)
Definition workflow_with_late_violation : Workflow :=
  mkWorkflow "workflow4" ""
    [ mkStage "stage1" [ valid_exec_step ];
      mkStage "stage2" [ valid_sleep_step; exec_step_missing_run ];
      mkStage "" [] ].

(** An exec step that carries a negative [Seconds], and a sleep step that
    carries a [Run]. *)
Definition exec_step_with_seconds : Step :=
  mkStep "step1" StepTypeExec ["echo"; "Hello"] (-5).

Definition sleep_step_with_run : Step :=
  mkStep "step1" StepTypeSleep ["echo"; "Hello"] 5.

End dsl_test.

(** ** The vocabulary of the specification *)

Import Go dsl runner.

(** An invocation of the command-execution or of the delay capability. *)
Inductive Call : Type :=
| CallExec (argv : list string)
| CallDelay (d : Z).

(** The capability invocations among the events, in order. *)
Definition calls (t : list Event) : list Call :=
  flat_map (fun ev =>
              match ev with
              | EvRunCmd argv _ => [CallExec argv]
              | EvSleep d => [CallDelay d]
              | _ => []
              end) t.

(** The lines written to the sink among the events, in order. *)
Definition lines (t : list Event) : list Line :=
  flat_map (fun ev => match ev with EvWrite l => [l] | _ => [] end) t.

(** The bytes written to the sink. *)
Definition output (t : list Event) : string :=
  String.concat "" (map render (lines t)).

(** No command of the events failed. *)
Definition no_failure (t : list Event) : Prop :=
  Forall (fun ev =>
            match ev with EvRunCmd _ (Some _) => False | _ => True end) t.

(** The one invocation a step stands for: its argv for [exec], its seconds
    as a duration for [sleep]. *)
Definition step_calls (s : Step) : list Call :=
  if Step_Type s =? StepTypeExec then [CallExec (Step_Run s)]
  else if Step_Type s =? StepTypeSleep then
    [CallDelay (seconds_to_Duration (Step_Seconds s))]
  else [].

Definition stage_calls (s : Stage) : list Call :=
  flat_map step_calls (Stage_Steps s).

(** Stage-major, then step-minor, in declared order. *)
Definition workflow_calls (stages : list Stage) : list Call :=
  flat_map stage_calls stages.

Definition known_type (s : Step) : Prop :=
  Step_Type s = StepTypeExec \/ Step_Type s = StepTypeSleep.

(** The elements of a list with their positions, counted from [k]. *)
Definition numbered_from {A} (k : nat) (l : list A) : list (nat * A) :=
  combine (seq k (length l)) l.

(** How a step makes [Run] stop: its command failed, or its type is not a
    known one. [e0] is the error [executeStep] returns and [last] the
    events of that call. *)
Definition step_abort (s : Step) (e0 : error) (last : list Event) : Prop :=
  (Step_Type s = StepTypeExec /\
   exists e, last = [EvRunCmd (Step_Run s) (Some e)] /\
             e0 = Errorf_w "command execution failed: " e)
  \/
  (~ known_type s /\ last = [] /\
   e0 = Errorf ("unknown step type: " ++ Step_Type s)).

(** The lines of a [Run] without error: per step its marker, and the
    notice of a sleep. *)
Definition step_notice (s : Step) : list Line :=
  if Step_Type s =? StepTypeExec then []
  else if Step_Type s =? StepTypeSleep then [RunSleeping (Step_Seconds s)]
  else [].

Definition run_step_lines (i : nat) (js : nat * Step) : list Line :=
  RunStep i (fst js) (Step_Name (snd js)) (Step_Type (snd js))
  :: step_notice (snd js).

Definition run_stage_lines (ks : nat * Stage) : list Line :=
  RunStage (fst ks) (Stage_Name (snd ks))
  :: flat_map (run_step_lines (fst ks))
              (numbered_from 1 (Stage_Steps (snd ks)))
  ++ [RunStageCompleted (fst ks)].

Definition run_lines (p : string) (stages : list Stage) : list Line :=
  RunStart p :: flat_map run_stage_lines (numbered_from 1 stages)
  ++ [RunCompleted].

(** The markers the specification lists for [Run]: start, stage start,
    step and completion. *)
Definition is_run_marker (l : Line) : bool :=
  match l with
  | RunStart _ | RunStage _ _ | RunStep _ _ _ _ | RunCompleted => true
  | _ => false
  end.

Definition run_stage_markers (ks : nat * Stage) : list Line :=
  RunStage (fst ks) (Stage_Name (snd ks))
  :: map (fun js => RunStep (fst ks) (fst js)
                            (Step_Name (snd js)) (Step_Type (snd js)))
         (numbered_from 1 (Stage_Steps (snd ks))).

Definition run_markers (p : string) (stages : list Stage) : list Line :=
  RunStart p :: flat_map run_stage_markers (numbered_from 1 stages)
  ++ [RunCompleted].

(** The lines of a [DryRun]: per step its marker, and what an [exec] or a
    [sleep] would do. *)
Definition step_would (s : Step) : list Line :=
  if Step_Type s =? StepTypeExec then [DryWouldExec (Step_Run s)]
  else if Step_Type s =? StepTypeSleep then [DryWouldSleep (Step_Seconds s)]
  else [].

Definition dry_step_lines (i : nat) (js : nat * Step) : list Line :=
  DryStep i (fst js) (Step_Name (snd js)) (Step_Type (snd js))
  :: step_would (snd js).

Definition dry_stage_lines (ks : nat * Stage) : list Line :=
  DryStage (fst ks) (Stage_Name (snd ks))
  :: flat_map (dry_step_lines (fst ks))
              (numbered_from 1 (Stage_Steps (snd ks)))
  ++ [DryStageCompleted (fst ks)].

Definition dry_lines (p : string) (stages : list Stage) : list Line :=
  DryStart p :: flat_map dry_stage_lines (numbered_from 1 stages)
  ++ [DryCompleted].

Definition is_dry_step (l : Line) : bool :=
  match l with DryStep _ _ _ _ => true | _ => false end.

Definition dry_stage_step_markers (ks : nat * Stage) : list Line :=
  map (fun js => DryStep (fst ks) (fst js)
                         (Step_Name (snd js)) (Step_Type (snd js)))
      (numbered_from 1 (Stage_Steps (snd ks))).

(** The invariants of the data model, as the specification lists them. *)
Definition step_invariants (s : Step) : Prop :=
  Step_Name s <> "" /\
  (Step_Type s = StepTypeExec -> Step_Run s <> []) /\
  (Step_Type s = StepTypeSleep -> (0 < Step_Seconds s)%Z) /\
  known_type s.

Definition stage_invariants (s : Stage) : Prop :=
  Stage_Name s <> "" /\ Stage_Steps s <> [] /\
  Forall step_invariants (Stage_Steps s).

Definition workflow_invariants (w : Workflow) : Prop :=
  Workflow_Name w <> "" /\ Workflow_Stages w <> [] /\
  Forall stage_invariants (Workflow_Stages w).

(** The eight causes of a validation error. *)
Inductive Cause : Type :=
| MissingWorkflowName
| EmptyStageList
| MissingStageName
| EmptyStepList
| MissingStepName
| ExecWithoutRun
| SleepNonPositive
| UnknownStepType (t : StepType).

Definition cause_error (c : Cause) : error :=
  match c with
  | MissingWorkflowName => errors_New "workflow name is required"
  | EmptyStageList => errors_New "workflow must have at least one stage"
  | MissingStageName => errors_New "stage name is required"
  | EmptyStepList => errors_New "stage must have at least one step"
  | MissingStepName => errors_New "step name is required"
  | ExecWithoutRun => errors_New "exec step requires 'run' command"
  | SleepNonPositive =>
      errors_New "sleep step requires positive 'seconds' value"
  | UnknownStepType t => Errorf ("unknown step type: " ++ t)
  end.

(** Every violation of a step, a stage and a workflow, in declaration
    order, each with the location context of the levels above it. This is
    what an aggregating validator would report. *)
Definition step_violations (s : Step) : list error :=
  (if Step_Name s =? "" then [cause_error MissingStepName] else [])
  ++ (if Step_Type s =? StepTypeExec then
        if Nat.eqb (length (Step_Run s)) 0 then [cause_error ExecWithoutRun]
        else []
      else if Step_Type s =? StepTypeSleep then
        if (Step_Seconds s <=? 0)%Z then [cause_error SleepNonPositive]
        else []
      else [cause_error (UnknownStepType (Step_Type s))]).

Definition step_context (js : nat * Step) : string :=
  "step " ++ fmt_d_nat (fst js) ++ " (" ++ Step_Name (snd js) ++ "): ".

Definition stage_context (ks : nat * Stage) : string :=
  "stage " ++ fmt_d_nat (fst ks) ++ " (" ++ Stage_Name (snd ks) ++ "): ".

Definition stage_violations (s : Stage) : list error :=
  (if Stage_Name s =? "" then [cause_error MissingStageName] else [])
  ++ (if Nat.eqb (length (Stage_Steps s)) 0 then [cause_error EmptyStepList]
      else [])
  ++ flat_map (fun js => map (Errorf_w (step_context js))
                             (step_violations (snd js)))
              (numbered_from 0 (Stage_Steps s)).

Definition workflow_violations (w : Workflow) : list error :=
  (if Workflow_Name w =? "" then [cause_error MissingWorkflowName] else [])
  ++ (if Nat.eqb (length (Workflow_Stages w)) 0 then
        [cause_error EmptyStageList]
      else [])
  ++ flat_map (fun ks => map (Errorf_w (stage_context ks))
                             (stage_violations (snd ks)))
              (numbered_from 0 (Workflow_Stages w)).

(** The rule a cause names is broken somewhere in the workflow. *)
Definition step_violates (s : Step) (c : Cause) : Prop :=
  match c with
  | MissingStepName => Step_Name s = ""
  | ExecWithoutRun => Step_Type s = StepTypeExec /\ Step_Run s = []
  | SleepNonPositive =>
      Step_Type s = StepTypeSleep /\ (Step_Seconds s <= 0)%Z
  | UnknownStepType t => t = Step_Type s /\ ~ known_type s
  | _ => False
  end.

Definition stage_violates (s : Stage) (c : Cause) : Prop :=
  match c with
  | MissingStageName => Stage_Name s = ""
  | EmptyStepList => Stage_Steps s = []
  | _ => exists step, In step (Stage_Steps s) /\ step_violates step c
  end.

Definition violated (w : Workflow) (c : Cause) : Prop :=
  match c with
  | MissingWorkflowName => Workflow_Name w = ""
  | EmptyStageList => Workflow_Stages w = []
  | _ => exists stage, In stage (Workflow_Stages w) /\ stage_violates stage c
  end.

(** Where the first violation of a workflow sits, and the error that
    reports it: each level wraps the cause of the level below with its own
    index and name. *)
Inductive first_violation (w : Workflow) : error -> Prop :=
| at_workflow (c : Cause) :
    c = MissingWorkflowName \/ c = EmptyStageList ->
    first_violation w (cause_error c)
| at_stage (i : nat) (stage : Stage) (c : Cause) :
    nth_error (Workflow_Stages w) i = Some stage ->
    Forall (fun s => Stage_Validate s = None) (firstn i (Workflow_Stages w)) ->
    c = MissingStageName \/ c = EmptyStepList ->
    first_violation w
      (wrapError ("stage " ++ fmt_d_nat i ++ " (" ++ Stage_Name stage ++ "): "
                    ++ Error (cause_error c))
                 (cause_error c))
| at_step (i : nat) (stage : Stage) (j : nat) (step : Step) (c : Cause) :
    nth_error (Workflow_Stages w) i = Some stage ->
    Forall (fun s => Stage_Validate s = None) (firstn i (Workflow_Stages w)) ->
    nth_error (Stage_Steps stage) j = Some step ->
    Forall (fun s => Step_Validate s = None) (firstn j (Stage_Steps stage)) ->
    Step_Validate step = Some (cause_error c) ->
    first_violation w
      (wrapError
         ("stage " ++ fmt_d_nat i ++ " (" ++ Stage_Name stage ++ "): "
            ++ "step " ++ fmt_d_nat j ++ " (" ++ Step_Name step ++ "): "
            ++ Error (cause_error c))
         (wrapError ("step " ++ fmt_d_nat j ++ " (" ++ Step_Name step ++ "): "
                       ++ Error (cause_error c))
                    (cause_error c))).

(** What the loader returns when [Run] and [DryRun] call it, that is, in
    the world the start marker has been written to. *)
Definition Run_load {W} (r : Runner W) (w : W) : Workflow + error :=
  fst (LoadWorkflow r (path r) (Out r (render (RunStart (path r))) w)).

Definition DryRun_load {W} (r : Runner W) (w : W) : Workflow + error :=
  fst (LoadWorkflow r (path r) (Out r (render (DryStart (path r))) w)).

(** The stage [a] and step [k] at which [Run] stopped with [err], after the
    events [t]: everything before the last call of [executeStep] went
    without failure and invoked exactly the steps declared before that
    one. *)
Definition aborted_at (stages : list Stage) (a : nat) (stage : Stage)
           (k : nat) (step : Step) (t : list Event) (err : error) : Prop :=
  nth_error stages a = Some stage /\
  nth_error (Stage_Steps stage) k = Some step /\
  exists (e0 : error) (pre last : list Event),
    t = (pre ++ last)%list /\
    no_failure pre /\
    calls pre = (workflow_calls (firstn a stages)
                 ++ flat_map step_calls (firstn k (Stage_Steps stage)))%list /\
    step_abort step e0 last /\
    err = Errorf_w ("stage '" ++ Stage_Name stage ++ "', step '"
                      ++ Step_Name step ++ "': ") e0.

(** Two sentences of the specification taken at their word. The first
    overlooks that [Run] stops at the first failure, the second that
    [DryRun] has no error of its own. *)

(** Every successful load makes [Run] invoke every exec and sleep step. *)
Definition Run_invokes_every_step : Prop :=
  forall (W : Type) (r : Runner W) (w : W) (wf : Workflow),
    Run_load r w = inl wf ->
    calls (events (Run r w)) = workflow_calls (Workflow_Stages wf).


(** ** Further vocabulary: construction, dry run and run compared *)

(** An option built by one of the four [With] functions of package
    runner. *)
Inductive Setting (W : Type) : Type :=
| SetOut (w : option (string -> W -> W))
| SetLoadWorkflow (f : option (string -> W -> (Workflow + error) * W))
| SetRunCmd (f : option (list string -> W -> option error * W))
| SetSleep (f : option (Z -> W -> W)).
Arguments SetOut {W}.
Arguments SetLoadWorkflow {W}.
Arguments SetRunCmd {W}.
Arguments SetSleep {W}.

Definition option_of {W} (s : Setting W) : runner_new.Option W :=
  match s with
  | SetOut w => runner_new.WithOut w
  | SetLoadWorkflow f => runner_new.WithLoadWorkflow f
  | SetRunCmd f => runner_new.WithRunCmd f
  | SetSleep f => runner_new.WithSleep f
  end.

(** The value of the last setting of each kind in a list, if there is
    one. *)
Fixpoint last_Out {W} (ss : list (Setting W))
  : option (option (string -> W -> W)) :=
  match ss with
  | [] => None
  | s :: rest =>
      match last_Out rest with
      | Some v => Some v
      | None => match s with SetOut v => Some v | _ => None end
      end
  end.

Fixpoint last_LoadWorkflow {W} (ss : list (Setting W))
  : option (option (string -> W -> (Workflow + error) * W)) :=
  match ss with
  | [] => None
  | s :: rest =>
      match last_LoadWorkflow rest with
      | Some v => Some v
      | None => match s with SetLoadWorkflow v => Some v | _ => None end
      end
  end.

Fixpoint last_RunCmd {W} (ss : list (Setting W))
  : option (option (list string -> W -> option error * W)) :=
  match ss with
  | [] => None
  | s :: rest =>
      match last_RunCmd rest with
      | Some v => Some v
      | None => match s with SetRunCmd v => Some v | _ => None end
      end
  end.

Fixpoint last_Sleep {W} (ss : list (Setting W))
  : option (option (Z -> W -> W)) :=
  match ss with
  | [] => None
  | s :: rest =>
      match last_Sleep rest with
      | Some v => Some v
      | None => match s with SetSleep v => Some v | _ => None end
      end
  end.

(** The value a field ends with: the last one set, or the default. *)
Definition chosen {A} (last : option (option A)) (default : A) : option A :=
  match last with
  | Some v => v
  | None => Some default
  end.

(** The invocation a line of [DryRun] announces. *)
Definition would_call (l : Line) : list Call :=
  match l with
  | DryWouldExec argv => [CallExec argv]
  | DryWouldSleep s => [CallDelay (seconds_to_Duration s)]
  | _ => []
  end.

(** What a step marker of either mode says: the two indices, the name and
    the type. *)
Definition step_key (l : Line) : list (nat * nat * string * StepType) :=
  match l with
  | RunStep i j n t | DryStep i j n t => [(i, j, n, t)]
  | _ => []
  end.

(** The events of a [Run] without error, writes and invocations in the
    order they happen. *)
Definition run_step_events (i : nat) (js : nat * Step) : list Event :=
  EvWrite (RunStep i (fst js) (Step_Name (snd js)) (Step_Type (snd js)))
  :: (if Step_Type (snd js) =? StepTypeExec then
        [EvRunCmd (Step_Run (snd js)) None]
      else if Step_Type (snd js) =? StepTypeSleep then
        [EvWrite (RunSleeping (Step_Seconds (snd js)));
         EvSleep (seconds_to_Duration (Step_Seconds (snd js)))]
      else []).

Definition run_stage_events (ks : nat * Stage) : list Event :=
  EvWrite (RunStage (fst ks) (Stage_Name (snd ks)))
  :: flat_map (run_step_events (fst ks))
              (numbered_from 1 (Stage_Steps (snd ks)))
  ++ [EvWrite (RunStageCompleted (fst ks))].

Definition run_events (p : string) (wf : Workflow) : list Event :=
  EvWrite (RunStart p) :: EvLoad p (inl wf)
  :: flat_map run_stage_events (numbered_from 1 (Workflow_Stages wf))
  ++ [EvWrite RunCompleted].

(** The largest number of seconds whose count of nanoseconds fits a
    [time.Duration]. *)
Definition max_seconds : Z := 9223372036%Z.

(** ** Doubles for the commands of package cmd *)

Module cmd_test.
Import Go dsl runner runner_new cmd.

(** A file system that holds "workflow.yml", cannot read "locked.yml" and
    has nothing else. *)
Definition stat_one_file : string -> runner_test.Mock -> option StatError :=
  fun p _ =>
    if p =? "workflow.yml" then None
    else if p =? "locked.yml" then Some ErrOtherStat
    else Some ErrNotExist.

(** Defaults whose loader returns the workflow of [TestRunner_Run_Success]
    and whose other collaborators are the recording doubles. *)
Definition mock_defaults : Defaults runner_test.Mock :=
  mkDefaults (runner_test.mockLoadWorkflow runner_test.build_test_stages)
             runner_test.mockRunCmd runner_test.mockSleep
             runner_test.bufferOut.

(** A [dsl.WriteTemplate] that always succeeds and records the name. *)
Definition write_ok : string -> runner_test.Mock
                      -> option error * runner_test.Mock :=
  fun name m =>
    (None, runner_test.mkMock (runner_test.cmdCalls m)
                              (runner_test.sleepCalls m)
                              (runner_test.out m ++ name)).

End cmd_test.

(** ** Further vocabulary: lines per step and positions of markers *)

(** The lines [DryRun] writes in the body of its loop over the steps. *)
Definition is_dry_step_line (l : Line) : bool :=
  match l with
  | DryStep _ _ _ _ | DryWouldExec _ | DryWouldSleep _ => true
  | _ => false
  end.

Definition has_known_type (s : Step) : bool :=
  (Step_Type s =? StepTypeExec) || (Step_Type s =? StepTypeSleep).

(** The sentence "[DryRun] never invokes a capability, emits one trace line
    per step and fails exactly when the loader does", taken at its word. *)
Definition DryRun_one_line_per_step : Prop :=
  forall (W : Type) (r : Runner W) (w : W),
    calls (events (DryRun r w)) = [] /\
    (val (DryRun r w) <> None <-> exists err, DryRun_load r w = inr err) /\
    forall wf,
      DryRun_load r w = inl wf ->
      length (filter is_dry_step_line (lines (events (DryRun r w))))
      = length (flat_map Stage_Steps (Workflow_Stages wf)).

(** The stage and step markers of either mode. *)
Definition is_position_marker (l : Line) : bool :=
  match l with
  | RunStage _ _ | RunStep _ _ _ _ | DryStage _ _ | DryStep _ _ _ _ => true
  | _ => false
  end.

(** The markers of all stages and steps in declared order, each carrying
    the position of its stage and of its step in their lists, which count
    from zero, plus one. *)
Definition markers_at (mk_stage : nat -> string -> Line)
           (mk_step : nat -> nat -> string -> StepType -> Line)
           (stages : list Stage) : list Line :=
  flat_map
    (fun ks =>
       mk_stage (fst ks + 1) (Stage_Name (snd ks))
       :: map (fun js => mk_step (fst ks + 1) (fst js + 1)
                                 (Step_Name (snd js)) (Step_Type (snd js)))
              (numbered_from 0 (Stage_Steps (snd ks))))
    (numbered_from 0 stages).

(** * Properties *)

(** ** Strings, lists and errors *)

Lemma length_eqb_0 {A} (l : list A) : Nat.eqb (length l) 0 = true <-> l = [].
Proof.
  destruct l as [|a l]; simpl; split; intro H;
    try reflexivity; discriminate H.
Qed.

Lemma length_eqb_0_false {A} (l : list A) :
  Nat.eqb (length l) 0 = false <-> l <> [].
Proof.
  destruct l as [|a l]; simpl; split; intro H;
    try discriminate; try reflexivity.
  now contradiction H.
Qed.

Lemma numbered_from_cons {A} (k : nat) (a : A) (l : list A) :
  numbered_from k (a :: l) = (k, a) :: numbered_from (S k) l.
Proof. reflexivity. Qed.

Lemma hd_error_map_app {A B} (f : A -> B) (l : list A) (l' : list B) :
  hd_error (map f l ++ l') =
  match hd_error l with Some a => Some (f a) | None => hd_error l' end.
Proof. destruct l; reflexivity. Qed.

Lemma known_type_dec (s : Step) :
  known_type s <->
  (Step_Type s =? StepTypeExec) = true \/ (Step_Type s =? StepTypeSleep) = true.
Proof. unfold known_type. now rewrite !String.eqb_eq. Qed.

Lemma cause_error_inj (c c' : Cause) : cause_error c = cause_error c' -> c = c'.
Proof.
  destruct c, c'; simpl; intro H; try reflexivity; try discriminate H.
  unfold Errorf in H. injection H as H. now subst.
Qed.

(** ** The validator *)

Lemma Step_Validate_first (s : Step) :
  Step_Validate s = hd_error (step_violations s).
Proof.
  unfold Step_Validate, step_violations.
  destruct (Step_Name s =? ""); [reflexivity|].
  destruct (Step_Type s =? StepTypeExec).
  - now destruct (Nat.eqb (length (Step_Run s)) 0).
  - destruct (Step_Type s =? StepTypeSleep); [|reflexivity].
    now destruct (Step_Seconds s <=? 0)%Z.
Qed.

Lemma Stage_Validate_steps_first (i : nat) (steps : list Step) :
  Stage_Validate_steps i steps =
  hd_error (flat_map (fun js => map (Errorf_w (step_context js))
                                    (step_violations (snd js)))
                     (numbered_from i steps)).
Proof.
  revert i; induction steps as [|s rest IH]; intro i; [reflexivity|].
  rewrite numbered_from_cons. simpl flat_map.
  rewrite hd_error_map_app, <- Step_Validate_first, <- IH. simpl.
  now destruct (Step_Validate s).
Qed.

Lemma Stage_Validate_first (s : Stage) :
  Stage_Validate s = hd_error (stage_violations s).
Proof.
  unfold Stage_Validate, stage_violations.
  destruct (Stage_Name s =? ""); [reflexivity|].
  destruct (Nat.eqb (length (Stage_Steps s)) 0); [reflexivity|].
  apply Stage_Validate_steps_first.
Qed.

Lemma Workflow_Validate_stages_first (i : nat) (stages : list Stage) :
  Workflow_Validate_stages i stages =
  hd_error (flat_map (fun ks => map (Errorf_w (stage_context ks))
                                    (stage_violations (snd ks)))
                     (numbered_from i stages)).
Proof.
  revert i; induction stages as [|s rest IH]; intro i; [reflexivity|].
  rewrite numbered_from_cons. simpl flat_map.
  rewrite hd_error_map_app, <- Stage_Validate_first, <- IH. simpl.
  now destruct (Stage_Validate s).
Qed.

Lemma Workflow_Validate_first (w : Workflow) :
  Workflow_Validate w = hd_error (workflow_violations w).
Proof.
  unfold Workflow_Validate, workflow_violations.
  destruct (Workflow_Name w =? ""); [reflexivity|].
  destruct (Nat.eqb (length (Workflow_Stages w)) 0); [reflexivity|].
  apply Workflow_Validate_stages_first.
Qed.

Lemma Step_Validate_ok (s : Step) :
  Step_Validate s = None <-> step_invariants s.
Proof.
  unfold Step_Validate, step_invariants, known_type.
  destruct (Step_Name s =? "") eqn:En.
  { apply String.eqb_eq in En. split; [discriminate|]. intros [H _]. easy. }
  apply String.eqb_neq in En.
  destruct (Step_Type s =? StepTypeExec) eqn:Ex.
  - apply String.eqb_eq in Ex.
    destruct (Nat.eqb (length (Step_Run s)) 0) eqn:El.
    + apply length_eqb_0 in El. split; [discriminate|].
      intros (_ & H & _). now contradiction (H Ex).
    + apply length_eqb_0_false in El. split; [|reflexivity]. intros _.
      repeat split; auto; rewrite Ex; discriminate.
  - apply String.eqb_neq in Ex.
    destruct (Step_Type s =? StepTypeSleep) eqn:Es.
    + apply String.eqb_eq in Es.
      destruct (Step_Seconds s <=? 0)%Z eqn:Ez.
      * apply Z.leb_le in Ez. split; [discriminate|].
        intros (_ & _ & H & _). specialize (H Es). lia.
      * apply Z.leb_gt in Ez. split; [|reflexivity]. intros _.
        repeat split; auto; intro H; now contradiction Ex.
    + apply String.eqb_neq in Es. split; [discriminate|].
      intros (_ & _ & _ & [H|H]); contradiction.
Qed.

Lemma Step_Validate_cause (s : Step) (e : error) :
  Step_Validate s = Some e ->
  exists c, e = cause_error c /\ step_violates s c.
Proof.
  unfold Step_Validate.
  destruct (Step_Name s =? "") eqn:En.
  { apply String.eqb_eq in En. intros [= <-]. now exists MissingStepName. }
  destruct (Step_Type s =? StepTypeExec) eqn:Ex.
  - apply String.eqb_eq in Ex.
    destruct (Nat.eqb (length (Step_Run s)) 0) eqn:El; [|discriminate].
    apply length_eqb_0 in El. intros [= <-]. now exists ExecWithoutRun.
  - apply String.eqb_neq in Ex.
    destruct (Step_Type s =? StepTypeSleep) eqn:Es.
    + apply String.eqb_eq in Es.
      destruct (Step_Seconds s <=? 0)%Z eqn:Ez; [|discriminate].
      apply Z.leb_le in Ez. intros [= <-]. now exists SleepNonPositive.
    + apply String.eqb_neq in Es. intros [= <-].
      exists (UnknownStepType (Step_Type s)). split; [reflexivity|].
      split; [reflexivity|]. intros [H|H]; contradiction.
Qed.

Lemma Stage_Validate_steps_ok (i : nat) (steps : list Step) :
  Stage_Validate_steps i steps = None <->
  Forall (fun s => Step_Validate s = None) steps.
Proof.
  revert i; induction steps as [|s rest IH]; intro i; simpl.
  - split; auto.
  - destruct (Step_Validate s) eqn:E.
    + split; [discriminate|]. intro H. inversion H; subst. congruence.
    + rewrite IH. split; intro H; [now constructor|now inversion H].
Qed.

Lemma Stage_Validate_steps_fail (i : nat) (steps : list Step) (e : error) :
  Stage_Validate_steps i steps = Some e ->
  exists j step e2,
    nth_error steps j = Some step /\
    Forall (fun s => Step_Validate s = None) (firstn j steps) /\
    Step_Validate step = Some e2 /\
    e = Errorf_w ("step " ++ fmt_d_nat (i + j) ++ " (" ++ Step_Name step
                    ++ "): ") e2.
Proof.
  revert i; induction steps as [|s rest IH]; intro i; simpl; [discriminate|].
  destruct (Step_Validate s) eqn:E.
  - intros [= <-]. exists 0, s, e0. rewrite Nat.add_0_r. simpl. auto.
  - intro H. destruct (IH _ H) as (j & step & e2 & Hn & Hf & Hv & He).
    exists (S j), step, e2. rewrite Nat.add_succ_r. simpl. auto.
Qed.

Lemma Stage_Validate_ok (s : Stage) :
  Stage_Validate s = None <-> stage_invariants s.
Proof.
  unfold Stage_Validate, stage_invariants.
  destruct (Stage_Name s =? "") eqn:En.
  { apply String.eqb_eq in En. split; [discriminate|]. intros [H _]. easy. }
  apply String.eqb_neq in En.
  destruct (Nat.eqb (length (Stage_Steps s)) 0) eqn:El.
  { apply length_eqb_0 in El. split; [discriminate|]. intros (_ & H & _).
    easy. }
  apply length_eqb_0_false in El. rewrite Stage_Validate_steps_ok.
  split.
  - intro H. repeat split; auto. revert H. apply Forall_impl.
    intro a. apply Step_Validate_ok.
  - intros (_ & _ & H). revert H. apply Forall_impl.
    intro a. apply Step_Validate_ok.
Qed.

Lemma Workflow_Validate_stages_ok (i : nat) (stages : list Stage) :
  Workflow_Validate_stages i stages = None <->
  Forall (fun s => Stage_Validate s = None) stages.
Proof.
  revert i; induction stages as [|s rest IH]; intro i; simpl.
  - split; auto.
  - destruct (Stage_Validate s) eqn:E.
    + split; [discriminate|]. intro H. inversion H; subst. congruence.
    + rewrite IH. split; intro H; [now constructor|now inversion H].
Qed.

Lemma Workflow_Validate_stages_fail (i : nat) (stages : list Stage)
      (e : error) :
  Workflow_Validate_stages i stages = Some e ->
  exists k stage e1,
    nth_error stages k = Some stage /\
    Forall (fun s => Stage_Validate s = None) (firstn k stages) /\
    Stage_Validate stage = Some e1 /\
    e = Errorf_w ("stage " ++ fmt_d_nat (i + k) ++ " (" ++ Stage_Name stage
                    ++ "): ") e1.
Proof.
  revert i; induction stages as [|s rest IH]; intro i; simpl; [discriminate|].
  destruct (Stage_Validate s) eqn:E.
  - intros [= <-]. exists 0, s, e0. rewrite Nat.add_0_r. simpl. auto.
  - intro H. destruct (IH _ H) as (j & stage & e2 & Hn & Hf & Hv & He).
    exists (S j), stage, e2. rewrite Nat.add_succ_r. simpl. auto.
Qed.

Lemma Workflow_Validate_ok (w : Workflow) :
  Workflow_Validate w = None <-> workflow_invariants w.
Proof.
  unfold Workflow_Validate, workflow_invariants.
  destruct (Workflow_Name w =? "") eqn:En.
  { apply String.eqb_eq in En. split; [discriminate|]. intros [H _]. easy. }
  apply String.eqb_neq in En.
  destruct (Nat.eqb (length (Workflow_Stages w)) 0) eqn:El.
  { apply length_eqb_0 in El. split; [discriminate|]. intros (_ & H & _).
    easy. }
  apply length_eqb_0_false in El. rewrite Workflow_Validate_stages_ok.
  split.
  - intro H. repeat split; auto. revert H. apply Forall_impl.
    intro a. apply Stage_Validate_ok.
  - intros (_ & _ & H). revert H. apply Forall_impl.
    intro a. apply Stage_Validate_ok.
Qed.

Lemma string_app_assoc (a b c : string) : ((a ++ b) ++ c = a ++ (b ++ c))%string.
Proof. induction a as [|x a IH]; simpl; [reflexivity|now rewrite IH]. Qed.

Lemma Stage_Validate_fail (s : Stage) (e : error) :
  Stage_Validate s = Some e ->
  (exists c, (c = MissingStageName \/ c = EmptyStepList) /\
             e = cause_error c /\ stage_violates s c)
  \/
  (exists j step c,
      nth_error (Stage_Steps s) j = Some step /\
      Forall (fun s => Step_Validate s = None) (firstn j (Stage_Steps s)) /\
      Step_Validate step = Some (cause_error c) /\
      step_violates step c /\
      e = Errorf_w ("step " ++ fmt_d_nat j ++ " (" ++ Step_Name step ++ "): ")
                   (cause_error c)).
Proof.
  unfold Stage_Validate.
  destruct (Stage_Name s =? "") eqn:En.
  { apply String.eqb_eq in En. intros [= <-]. left.
    exists MissingStageName. auto. }
  destruct (Nat.eqb (length (Stage_Steps s)) 0) eqn:El.
  { apply length_eqb_0 in El. intros [= <-]. left.
    exists EmptyStepList. auto. }
  intro H. right.
  destruct (Stage_Validate_steps_fail _ _ _ H)
    as (j & step & e2 & Hn & Hf & Hv & He).
  destruct (Step_Validate_cause _ _ Hv) as (c & -> & Hc).
  exists j, step, c. auto.
Qed.

Lemma step_violates_stage (s : Stage) (step : Step) (c : Cause) :
  In step (Stage_Steps s) -> step_violates step c -> stage_violates s c.
Proof.
  intros Hin Hc. destruct c; simpl in *; try contradiction; eauto.
Qed.

Lemma stage_violates_workflow (w : Workflow) (s : Stage) (c : Cause) :
  In s (Workflow_Stages w) ->
  c <> MissingWorkflowName -> c <> EmptyStageList ->
  stage_violates s c -> violated w c.
Proof.
  intros Hin H1 H2 Hc. destruct c; simpl in *; try congruence; eauto.
Qed.

Lemma step_violates_cause (s : Step) (c : Cause) :
  step_violates s c ->
  c <> MissingWorkflowName /\ c <> EmptyStageList /\
  c <> MissingStageName /\ c <> EmptyStepList.
Proof. destruct c; simpl; intro H; try contradiction; repeat split; discriminate. Qed.

(** The first violation of a workflow that [Workflow_Validate] rejects,
    with the cause it reports. *)
Lemma Workflow_Validate_fail (w : Workflow) (e : error) :
  Workflow_Validate w = Some e ->
  first_violation w e /\
  exists c, root_cause e = cause_error c /\ violated w c.
Proof.
  unfold Workflow_Validate.
  destruct (Workflow_Name w =? "") eqn:En.
  { apply String.eqb_eq in En. intros [= <-]. split.
    - apply (at_workflow w MissingWorkflowName). auto.
    - now exists MissingWorkflowName. }
  destruct (Nat.eqb (length (Workflow_Stages w)) 0) eqn:El.
  { apply length_eqb_0 in El. intros [= <-]. split.
    - apply (at_workflow w EmptyStageList). auto.
    - now exists EmptyStageList. }
  intro H.
  destruct (Workflow_Validate_stages_fail _ _ _ H)
    as (i & stage & e1 & Hn & Hf & Hv & ->).
  simpl plus. pose proof (nth_error_In _ _ Hn) as Hin.
  destruct (Stage_Validate_fail _ _ Hv)
    as [(c & Hc & -> & Hviol)|(j & step & c & Hj & Hfj & Hsv & Hviol & ->)].
  - split.
    + unfold Errorf_w. do 3 (rewrite ?string_app_assoc; simpl).
      now apply (at_stage w i stage c).
    + exists c. split.
      * now destruct c.
      * apply (stage_violates_workflow w stage c Hin); auto;
          destruct Hc; subst; discriminate.
  - split.
    + unfold Errorf_w. simpl Error.
      do 3 (rewrite ?string_app_assoc; simpl).
      now apply (at_step w i stage j step c).
    + exists c. split.
      * now destruct c.
      * destruct (step_violates_cause _ _ Hviol) as (H1 & H2 & _).
        apply (stage_violates_workflow w stage c Hin H1 H2).
        apply (step_violates_stage stage step c); auto.
        now apply nth_error_In with j.
Qed.

(** C3. [Workflow.Validate] returns no error if and only if the invariants
    of the data model hold; when it returns an error, the innermost cause
    of that error is exactly one of the eight causes (missing workflow
    name, empty stage list, missing stage name, empty step list, missing
    step name, exec step without run command, sleep step with non-positive
    seconds, unrecognized step type), and the rule that cause names is
    broken in the workflow. *)
Theorem Workflow_Validate_accepts_iff_invariants (w : Workflow) :
  (Workflow_Validate w = None <-> workflow_invariants w) /\
  (forall e, Workflow_Validate w = Some e ->
     exists c, root_cause e = cause_error c /\ violated w c /\
               forall c', root_cause e = cause_error c' -> c' = c).
Proof.
  split; [apply Workflow_Validate_ok|].
  intros e H. destruct (Workflow_Validate_fail w e H) as (_ & c & Hc & Hv).
  exists c. repeat split; auto.
  intros c' Hc'. apply cause_error_inj. congruence.
Qed.

Lemma Workflow_Validate_accepts_iff_invariants_witness :
  workflow_invariants dsl_test.valid_workflow /\
  exists c, violated dsl_test.workflow_with_invalid_stage c.
Proof.
  split.
  - apply (proj1 (Workflow_Validate_accepts_iff_invariants
                    dsl_test.valid_workflow)).
    reflexivity.
  - destruct (proj2 (Workflow_Validate_accepts_iff_invariants
                       dsl_test.workflow_with_invalid_stage)
                    _ eq_refl) as (c & _ & Hv & _).
    exists c. exact Hv.
Defined.

(** C5. Validation is fail-fast: when [Workflow.Validate] rejects, the
    error it returns is the first of all violations in declaration order
    (workflow level, then each stage in order, then each step in order
    within its stage), a single error and not an aggregate; the cause is
    wrapped with the index and name of the failing step and then with the
    index and name of its stage, so that the message names both. *)
Theorem Workflow_Validate_fail_fast (w : Workflow) (e : error) :
  Workflow_Validate w = Some e ->
  hd_error (workflow_violations w) = Some e /\ first_violation w e.
Proof.
  intro H. split.
  - now rewrite <- Workflow_Validate_first.
  - apply (Workflow_Validate_fail w e H).
Qed.

Lemma Workflow_Validate_fail_fast_witness :
  let e := Errorf_w "stage 1 (stage2): "
             (Errorf_w "step 1 (step4): "
                (errors_New "exec step requires 'run' command")) in
  Error e = "stage 1 (stage2): step 1 (step4): exec step requires 'run' command"
  /\ length (workflow_violations dsl_test.workflow_with_late_violation) = 3
  /\ hd_error (workflow_violations dsl_test.workflow_with_late_violation)
     = Some e
  /\ first_violation dsl_test.workflow_with_late_violation e.
Proof.
  intro e. split; [reflexivity|]. split; [reflexivity|].
  apply (Workflow_Validate_fail_fast dsl_test.workflow_with_late_violation e).
  reflexivity.
Defined.

(** C9. [Step.Validate] looks only at the fields of the step's own
    variant: its result on an exec step does not depend on the seconds and
    its result on a sleep step does not depend on the run. So an exec step
    with a non-empty name and a non-empty run is accepted whatever its
    seconds are (zero and negative included), and a sleep step with a
    non-empty name and strictly positive seconds is accepted whatever its
    run holds. *)
Theorem Step_Validate_own_variant_only
        (name : string) (run run' : list string) (secs secs' : Z) :
  Step_Validate (mkStep name StepTypeExec run secs) =
  Step_Validate (mkStep name StepTypeExec run secs') /\
  Step_Validate (mkStep name StepTypeSleep run secs) =
  Step_Validate (mkStep name StepTypeSleep run' secs) /\
  (name <> "" -> run <> [] ->
   Step_Validate (mkStep name StepTypeExec run secs') = None) /\
  (name <> "" -> (0 < secs)%Z ->
   Step_Validate (mkStep name StepTypeSleep run' secs) = None).
Proof.
  split; [reflexivity|]. split; [reflexivity|].
  unfold Step_Validate; simpl. split.
  - intros Hn Hr. apply String.eqb_neq in Hn. rewrite Hn.
    apply length_eqb_0_false in Hr. now rewrite Hr.
  - intros Hn Hs. apply String.eqb_neq in Hn. rewrite Hn.
    apply Z.leb_gt in Hs. now rewrite Hs.
Qed.

Lemma Step_Validate_own_variant_only_witness :
  Step_Validate dsl_test.exec_step_with_seconds = None /\
  Step_Validate dsl_test.sleep_step_with_run = None.
Proof.
  pose proof (Step_Validate_own_variant_only
                "step1" ["echo"; "Hello"] ["echo"; "Hello"] 5 (-5))
    as (_ & _ & Hexec & Hsleep).
  split.
  - apply Hexec; discriminate.
  - apply Hsleep; [discriminate|reflexivity].
Defined.

(** ** The engine *)

Section EngineFacts.
Context {W : Type} (r : Runner W).

Lemma step_type_cases (s : Step) :
  (Step_Type s =? StepTypeExec) = true
  \/ ((Step_Type s =? StepTypeExec) = false /\
      (Step_Type s =? StepTypeSleep) = true)
  \/ ((Step_Type s =? StepTypeExec) = false /\
      (Step_Type s =? StepTypeSleep) = false).
Proof.
  destruct (Step_Type s =? StepTypeExec); auto.
  destruct (Step_Type s =? StepTypeSleep); auto.
Qed.

Lemma unknown_type_eqb (s : Step) :
  ~ known_type s <->
  (Step_Type s =? StepTypeExec) = false /\
  (Step_Type s =? StepTypeSleep) = false.
Proof.
  rewrite known_type_dec.
  destruct (Step_Type s =? StepTypeExec), (Step_Type s =? StepTypeSleep);
    intuition congruence.
Qed.

(** [executeStep], one equation per branch of its [switch]. *)
Lemma executeStep_exec (s : Step) (w : W) :
  (Step_Type s =? StepTypeExec) = true ->
  executeStep r s w =
  mkRes (match fst (RunCmd r (Step_Run s) w) with
         | Some e => Some (Errorf_w "command execution failed: " e)
         | None => None
         end)
        (snd (RunCmd r (Step_Run s) w))
        [EvRunCmd (Step_Run s) (fst (RunCmd r (Step_Run s) w))].
Proof.
  intro H. unfold executeStep. rewrite H. unfold bind, callRunCmd. simpl.
  now destruct (fst (RunCmd r (Step_Run s) w)).
Qed.

Lemma executeStep_sleep (s : Step) (w : W) :
  (Step_Type s =? StepTypeExec) = false ->
  (Step_Type s =? StepTypeSleep) = true ->
  executeStep r s w =
  mkRes None
        (Sleep r (seconds_to_Duration (Step_Seconds s))
               (Out r (render (RunSleeping (Step_Seconds s))) w))
        [EvWrite (RunSleeping (Step_Seconds s));
         EvSleep (seconds_to_Duration (Step_Seconds s))].
Proof. intros H1 H2. unfold executeStep. now rewrite H1, H2. Qed.

Lemma executeStep_unknown (s : Step) (w : W) :
  ~ known_type s ->
  executeStep r s w =
  mkRes (Some (Errorf ("unknown step type: " ++ Step_Type s))) w [].
Proof.
  intro H. apply unknown_type_eqb in H. destruct H as [H1 H2].
  unfold executeStep. now rewrite H1, H2.
Qed.

(** One turn of the inner loop of [Run]. *)
Lemma Run_steps_cons (i : nat) (stage : Stage) (j : nat) (s : Step)
      (rest : list Step) (w : W) :
  let mark := RunStep (i + 1) (j + 1) (Step_Name s) (Step_Type s) in
  let r1 := executeStep r s (Out r (render mark) w) in
  Run_steps r i stage j (s :: rest) w =
  match val r1 with
  | Some e =>
      mkRes (Some (Errorf_w ("stage '" ++ Stage_Name stage ++ "', step '"
                               ++ Step_Name s ++ "': ") e))
            (world r1) (EvWrite mark :: events r1)
  | None =>
      let r2 := Run_steps r i stage (S j) rest (world r1) in
      mkRes (val r2) (world r2) (EvWrite mark :: events r1 ++ events r2)
  end.
Proof.
  intros mark r1. cbn [Run_steps]. unfold bind, Fprintf.
  cbn [val world events app]. fold mark. fold r1.
  destruct (val r1); cbn [ret val world events];
    rewrite ?app_nil_r; reflexivity.
Qed.

(** One turn of the outer loop of [Run]. *)
Lemma Run_stages_cons (i : nat) (stage : Stage) (rest : list Stage) (w : W) :
  let mark := RunStage (i + 1) (Stage_Name stage) in
  let done := RunStageCompleted (i + 1) in
  let r1 := Run_steps r i stage 0 (Stage_Steps stage) (Out r (render mark) w) in
  Run_stages r i (stage :: rest) w =
  match val r1 with
  | Some e => mkRes (Some e) (world r1) (EvWrite mark :: events r1)
  | None =>
      let r2 := Run_stages r (S i) rest (Out r (render done) (world r1)) in
      mkRes (val r2) (world r2)
            (EvWrite mark :: events r1 ++ EvWrite done :: events r2)
  end.
Proof.
  intros mark done r1. cbn [Run_stages]. unfold bind, Fprintf.
  cbn [val world events app]. fold mark. fold r1.
  destruct (val r1); cbn [ret val world events app];
    rewrite ?app_nil_r; reflexivity.
Qed.

(** [Run], after its start marker and its call of the loader. *)
Lemma Run_unfold (w : W) :
  let w0 := Out r (render (RunStart (path r))) w in
  let w1 := snd (LoadWorkflow r (path r) w0) in
  Run r w =
  match Run_load r w with
  | inr err =>
      mkRes (Some err) w1
            [EvWrite (RunStart (path r)); EvLoad (path r) (inr err)]
  | inl wf =>
      let r1 := Run_stages r 0 (Workflow_Stages wf) w1 in
      match val r1 with
      | Some e =>
          mkRes (Some e) (world r1)
                (EvWrite (RunStart (path r)) :: EvLoad (path r) (inl wf)
                   :: events r1)
      | None =>
          mkRes None (Out r (render RunCompleted) (world r1))
                (EvWrite (RunStart (path r)) :: EvLoad (path r) (inl wf)
                   :: events r1 ++ [EvWrite RunCompleted])
      end
  end.
Proof.
  intros w0 w1. unfold Run, Run_load, bind, Fprintf, callLoadWorkflow.
  cbn [val world events app]. fold w0. fold w1.
  destruct (fst (LoadWorkflow r (path r) w0)) as [wf|err].
  - destruct (val (Run_stages r 0 (Workflow_Stages wf) w1));
      cbn [ret val world events app]; rewrite ?app_nil_r; reflexivity.
  - reflexivity.
Qed.


Lemma calls_app (t t' : list Event) : calls (t ++ t') = (calls t ++ calls t')%list.
Proof. apply flat_map_app. Qed.

Lemma lines_app (t t' : list Event) : lines (t ++ t') = (lines t ++ lines t')%list.
Proof. apply flat_map_app. Qed.

Lemma no_failure_app (t t' : list Event) :
  no_failure t -> no_failure t' -> no_failure (t ++ t').
Proof. intros H H'. apply Forall_app. now split. Qed.

(** What one call of [executeStep] does: it invokes the capability of the
    step, and it fails only by [step_abort]. *)
Lemma executeStep_outcome (s : Step) (w : W) :
  let r1 := executeStep r s w in
  calls (events r1) = step_calls s /\
  match val r1 with
  | None =>
      known_type s /\ no_failure (events r1) /\
      lines (events r1) = step_notice s
  | Some e0 => step_abort s e0 (events r1)
  end.
Proof.
  cbv zeta. unfold step_calls, step_notice.
  destruct (step_type_cases s) as [Hx|[[Hx Hs]|[Hx Hs]]].
  - rewrite (executeStep_exec s w Hx), Hx. cbn [val events].
    split; [reflexivity|]. apply String.eqb_eq in Hx.
    destruct (fst (RunCmd r (Step_Run s) w)) as [e|].
    + left. split; [exact Hx|]. now exists e.
    + split; [now left|]. split; [|reflexivity]. now repeat constructor.
  - rewrite (executeStep_sleep s w Hx Hs), Hx, Hs. cbn [val events].
    split; [reflexivity|]. apply String.eqb_eq in Hs.
    split; [now right|]. split; [|reflexivity]. now repeat constructor.
  - assert (Hu : ~ known_type s) by now apply unknown_type_eqb.
    rewrite (executeStep_unknown s w Hu), Hx, Hs. cbn [val events].
    split; [reflexivity|]. right. auto.
Qed.

(** The inner loop of [Run]: either every step ran, or the loop stopped at
    the first step that aborts. *)
Lemma Run_steps_outcome (i : nat) (stage : Stage) (steps : list Step) :
  forall (j : nat) (w : W),
    let res := Run_steps r i stage j steps w in
    match val res with
    | None =>
        no_failure (events res) /\
        calls (events res) = flat_map step_calls steps /\
        lines (events res) =
          flat_map (run_step_lines (i + 1)) (numbered_from (j + 1) steps) /\
        Forall known_type steps
    | Some err =>
        exists k step e0 pre last,
          nth_error steps k = Some step /\
          events res = (pre ++ last)%list /\
          no_failure pre /\
          calls pre = flat_map step_calls (firstn k steps) /\
          step_abort step e0 last /\
          err = Errorf_w ("stage '" ++ Stage_Name stage ++ "', step '"
                            ++ Step_Name step ++ "': ") e0
    end.
Proof.
  induction steps as [|s rest IH]; intros j w; cbv zeta.
  - cbn. repeat split; constructor.
  - rewrite Run_steps_cons. cbv zeta.
    set (mark := RunStep (i + 1) (j + 1) (Step_Name s) (Step_Type s)).
    set (r1 := executeStep r s (Out r (render mark) w)).
    destruct (executeStep_outcome s (Out r (render mark) w)) as [Hc1 Ho].
    fold r1 in Hc1, Ho.
    destruct (val r1) as [e0|].
    + cbn [val events].
      exists 0, s, e0, [EvWrite mark], (events r1).
      repeat split; auto. now repeat constructor.
    + cbn [val events]. destruct Ho as (Hk & Hnf & Hl).
      specialize (IH (S j) (world r1)). cbv zeta in IH.
      set (r2 := Run_steps r i stage (S j) rest (world r1)) in *.
      destruct (val r2) as [err|].
      * destruct IH as (k & step & e0 & pre & last & Hn & He & Hp & Hc & Ha & ->).
        exists (S k), step, e0, (EvWrite mark :: events r1 ++ pre)%list, last.
        split; [exact Hn|]. split; [rewrite He; cbn; now rewrite app_assoc|].
        split; [constructor; [exact I|now apply no_failure_app]|].
        split; [|split; [exact Ha|reflexivity]].
        change (calls (EvWrite mark :: events r1 ++ pre))
          with (calls (events r1 ++ pre)).
        rewrite calls_app, Hc1, Hc. reflexivity.
      * destruct IH as (Hnf2 & Hc2 & Hl2 & Hk2).
        split; [constructor; [exact I|now apply no_failure_app]|].
        split; [|split; [|now constructor]].
        -- change (calls (EvWrite mark :: events r1 ++ events r2))
             with (calls (events r1 ++ events r2)).
           rewrite calls_app, Hc1, Hc2. reflexivity.
        -- change (lines (EvWrite mark :: events r1 ++ events r2))
             with (mark :: lines (events r1 ++ events r2)).
           rewrite lines_app, Hl, Hl2, numbered_from_cons. reflexivity.
Qed.

(** The outer loop of [Run]: either every stage ran, or the loop stopped
    at the first step that aborts. *)
Lemma Run_stages_outcome (stages : list Stage) :
  forall (i : nat) (w : W),
    let res := Run_stages r i stages w in
    match val res with
    | None =>
        no_failure (events res) /\
        calls (events res) = workflow_calls stages /\
        lines (events res) =
          flat_map run_stage_lines (numbered_from (i + 1) stages) /\
        Forall (fun s => Forall known_type (Stage_Steps s)) stages
    | Some err =>
        exists a stage k step,
          aborted_at stages a stage k step (events res) err
    end.
Proof.
  induction stages as [|s rest IH]; intros i w; cbv zeta.
  - cbn. repeat split; constructor.
  - rewrite Run_stages_cons. cbv zeta.
    set (mark := RunStage (i + 1) (Stage_Name s)).
    set (done := RunStageCompleted (i + 1)).
    pose proof (Run_steps_outcome i s (Stage_Steps s) 0
                                  (Out r (render mark) w)) as Ho.
    cbv zeta in Ho.
    set (r1 := Run_steps r i s 0 (Stage_Steps s) (Out r (render mark) w)) in *.
    destruct (val r1) as [e|].
    + cbn [val events].
      destruct Ho as (k & step & e0 & pre & last & Hn & He & Hp & Hc & Ha & ->).
      exists 0, s, k, step. split; [reflexivity|]. split; [exact Hn|].
      exists e0, (EvWrite mark :: pre), last.
      split; [now rewrite He|]. split; [now constructor|].
      split; [exact Hc|]. split; [exact Ha|reflexivity].
    + cbn [val events]. destruct Ho as (Hnf & Hc & Hl & Hk).
      specialize (IH (S i) (Out r (render done) (world r1))). cbv zeta in IH.
      set (r2 := Run_stages r (S i) rest (Out r (render done) (world r1))) in *.
      destruct (val r2) as [err|].
      * destruct IH as (a & stage & k & step & Hn1 & Hn2 & e0 & pre & last
                        & He & Hp & Hcp & Ha & ->).
        exists (S a), stage, k, step. split; [exact Hn1|]. split; [exact Hn2|].
        exists e0, (EvWrite mark :: events r1 ++ EvWrite done :: pre)%list, last.
        split; [rewrite He; cbn; rewrite <- app_assoc; reflexivity|].
        split.
        { constructor; [exact I|]. apply no_failure_app; [exact Hnf|].
          now constructor. }
        split; [|split; [exact Ha|reflexivity]].
        change (calls (EvWrite mark :: events r1 ++ EvWrite done :: pre))
          with (calls (events r1 ++ EvWrite done :: pre)).
        rewrite calls_app, Hc.
        change (calls (EvWrite done :: pre)) with (calls pre).
        rewrite Hcp. cbn [firstn workflow_calls flat_map].
        unfold stage_calls at 2. now rewrite app_assoc.
      * destruct IH as (Hnf2 & Hc2 & Hl2 & Hk2).
        split.
        { constructor; [exact I|]. apply no_failure_app; [exact Hnf|].
          now constructor. }
        split; [|split; [|now constructor]].
        -- change (calls (EvWrite mark :: events r1 ++ EvWrite done :: events r2))
             with (calls (events r1 ++ EvWrite done :: events r2)).
           rewrite calls_app, Hc.
           change (calls (EvWrite done :: events r2)) with (calls (events r2)).
           now rewrite Hc2.
        -- change (lines (EvWrite mark :: events r1 ++ EvWrite done :: events r2))
             with (mark :: lines (events r1 ++ EvWrite done :: events r2)).
           rewrite lines_app, Hl.
           change (lines (EvWrite done :: events r2))
             with (done :: lines (events r2)).
           rewrite Hl2, numbered_from_cons. cbn [flat_map].
           unfold run_stage_lines at 2. cbn [fst snd]. fold mark. fold done.
           cbn [app]. now rewrite <- app_assoc.
Qed.

(** [Run] as a whole, for the workflow the loader returned. *)
Lemma Run_outcome (w : W) (wf : Workflow) :
  Run_load r w = inl wf ->
  exists rest,
    events (Run r w) =
      EvWrite (RunStart (path r)) :: EvLoad (path r) (inl wf) :: rest /\
    match val (Run r w) with
    | None =>
        no_failure rest /\
        calls rest = workflow_calls (Workflow_Stages wf) /\
        lines (events (Run r w)) = run_lines (path r) (Workflow_Stages wf) /\
        Forall (fun s => Forall known_type (Stage_Steps s))
               (Workflow_Stages wf)
    | Some err =>
        exists a stage k step,
          aborted_at (Workflow_Stages wf) a stage k step rest err
    end.
Proof.
  intro Hl. rewrite Run_unfold. cbv zeta. rewrite Hl.
  set (w1 := snd (LoadWorkflow r (path r)
                               (Out r (render (RunStart (path r))) w))).
  pose proof (Run_stages_outcome (Workflow_Stages wf) 0 w1) as Ho.
  cbv zeta in Ho.
  set (r1 := Run_stages r 0 (Workflow_Stages wf) w1) in *.
  destruct (val r1) as [e|]; cbn [val events].
  - exists (events r1). split; [reflexivity|exact Ho].
  - exists (events r1 ++ [EvWrite RunCompleted])%list.
    split; [reflexivity|]. destruct Ho as (Hnf & Hc & Hli & Hk).
    split; [apply no_failure_app; [exact Hnf|now constructor]|].
    split; [rewrite calls_app, Hc; cbn; now rewrite app_nil_r|].
    split; [|exact Hk].
    change (lines (EvWrite (RunStart (path r)) :: EvLoad (path r) (inl wf)
                     :: events r1 ++ [EvWrite RunCompleted]))
      with (RunStart (path r) :: lines (events r1 ++ [EvWrite RunCompleted])).
    rewrite lines_app, Hli. reflexivity.
Qed.

(** [DryRun]: its events are writes, apart from the one call of the
    loader. *)
Lemma DryRun_step_events (s : Step) (w : W) :
  events (DryRun_step r s w) = map EvWrite (step_would s).
Proof.
  unfold DryRun_step, step_would.
  destruct (Step_Type s =? StepTypeExec); [reflexivity|].
  now destruct (Step_Type s =? StepTypeSleep).
Qed.

Lemma DryRun_steps_events (i : nat) (steps : list Step) :
  forall (j : nat) (w : W),
    events (DryRun_steps r i j steps w) =
    map EvWrite (flat_map (dry_step_lines (i + 1))
                          (numbered_from (j + 1) steps)).
Proof.
  induction steps as [|s rest IH]; intros j w; [reflexivity|].
  cbn [DryRun_steps]. unfold bind, Fprintf. cbn [val world events app].
  rewrite DryRun_step_events, IH, numbered_from_cons.
  cbn [flat_map]. unfold dry_step_lines at 2. cbn [fst snd map].
  now rewrite map_app.
Qed.

Lemma DryRun_stages_events (stages : list Stage) :
  forall (i : nat) (w : W),
    events (DryRun_stages r i stages w) =
    map EvWrite (flat_map dry_stage_lines (numbered_from (i + 1) stages)).
Proof.
  induction stages as [|s rest IH]; intros i w; [reflexivity|].
  cbn [DryRun_stages]. unfold bind, Fprintf. cbn [val world events app].
  rewrite DryRun_steps_events, IH, numbered_from_cons.
  cbn [flat_map]. unfold dry_stage_lines at 2. cbn [fst snd map].
  rewrite !map_app. cbn [map app]. rewrite ?map_app, <- ?app_assoc.
  reflexivity.
Qed.

Lemma DryRun_val (w : W) :
  val (DryRun r w) =
  match DryRun_load r w with inr err => Some err | inl _ => None end.
Proof.
  unfold DryRun, DryRun_load, bind, Fprintf, callLoadWorkflow.
  cbn [val world events].
  now destruct (fst (LoadWorkflow r (path r)
                                  (Out r (render (DryStart (path r))) w))).
Qed.

Lemma DryRun_events (w : W) :
  events (DryRun r w) =
  EvWrite (DryStart (path r)) :: EvLoad (path r) (DryRun_load r w)
  :: match DryRun_load r w with
     | inr _ => []
     | inl wf =>
         map EvWrite (flat_map dry_stage_lines
                               (numbered_from 1 (Workflow_Stages wf))
                      ++ [DryCompleted])
     end.
Proof.
  unfold DryRun, DryRun_load, bind, Fprintf, callLoadWorkflow.
  cbn [val world events app].
  destruct (fst (LoadWorkflow r (path r)
                              (Out r (render (DryStart (path r))) w)));
    cbn [ret val world events app]; [|reflexivity].
  rewrite DryRun_stages_events, map_app. reflexivity.
Qed.

End EngineFacts.

Lemma lines_writes (l : list Line) : lines (map EvWrite l) = l.
Proof. induction l as [|a l IH]; cbn; [reflexivity|f_equal; exact IH]. Qed.

Lemma calls_writes (l : list Line) : calls (map EvWrite l) = [].
Proof. induction l as [|a l IH]; cbn; [reflexivity|exact IH]. Qed.

Lemma filter_flat_map {A B} (f : B -> bool) (g : A -> list B) (l : list A) :
  filter f (flat_map g l) = flat_map (fun a => filter f (g a)) l.
Proof.
  induction l as [|a l IH]; cbn; [reflexivity|].
  now rewrite filter_app, IH.
Qed.

Lemma length_numbered_from {A} (k : nat) (l : list A) :
  length (numbered_from k l) = length l.
Proof.
  unfold numbered_from. rewrite length_combine, length_seq. apply Nat.min_id.
Qed.

Lemma dry_step_markers_of_stage (ks : nat * Stage) :
  filter is_dry_step (dry_stage_lines ks) = dry_stage_step_markers ks.
Proof.
  unfold dry_stage_lines, dry_stage_step_markers. cbn [filter is_dry_step].
  rewrite filter_app. cbn [filter is_dry_step]. rewrite app_nil_r.
  generalize (numbered_from 1 (Stage_Steps (snd ks))). intro l.
  induction l as [|js l IH]; [reflexivity|].
  cbn [flat_map map]. rewrite filter_app, IH.
  unfold dry_step_lines, step_would. cbn [filter is_dry_step].
  destruct (Step_Type (snd js) =? StepTypeExec); [reflexivity|].
  now destruct (Step_Type (snd js) =? StepTypeSleep).
Qed.

Lemma count_dry_step_markers (k : nat) (stages : list Stage) :
  length (flat_map dry_stage_step_markers (numbered_from k stages)) =
  length (flat_map Stage_Steps stages).
Proof.
  revert k; induction stages as [|s rest IH]; intro k; [reflexivity|].
  rewrite numbered_from_cons. cbn [flat_map]. rewrite !length_app, IH.
  unfold dry_stage_step_markers. cbn [fst snd].
  now rewrite length_map, length_numbered_from.
Qed.

Lemma flat_map_split {A B} (f : A -> list B) (l : list A) (n : nat) (x : A) :
  nth_error l n = Some x ->
  flat_map f l =
  (flat_map f (firstn n l) ++ f x ++ flat_map f (skipn (S n) l))%list.
Proof.
  revert n; induction l as [|a l IH]; intros [|n] H; try discriminate H.
  - injection H as ->. reflexivity.
  - cbn [flat_map firstn skipn]. rewrite (IH n H), <- app_assoc. reflexivity.
Qed.

Lemma no_failure_not_in (t : list Event) (argv : list string) (e : error) :
  no_failure t -> ~ In (EvRunCmd argv (Some e)) t.
Proof.
  intros H Hin. unfold no_failure in H. rewrite Forall_forall in H.
  exact (H _ Hin).
Qed.

(** A failed command that ends events without failure is the only failed
    command of the whole. *)
Lemma unique_failure (p pre post : list Event) (x : Event)
      (argv : list string) (e : error) :
  no_failure p ->
  (p ++ [x])%list = (pre ++ EvRunCmd argv (Some e) :: post)%list ->
  pre = p /\ x = EvRunCmd argv (Some e) /\ post = [].
Proof.
  intro Hp. revert pre. induction p as [|a p IH]; intros pre H.
  - destruct pre as [|b pre]; cbn in H.
    + injection H as -> <-. auto.
    + injection H as _ H. now destruct pre.
  - inversion Hp as [|a' p' Ha Hp']; subst.
    destruct pre as [|b pre]; cbn in H.
    + injection H as -> _. contradiction.
    + injection H as -> H. destruct (IH Hp' pre H) as (-> & -> & ->). auto.
Qed.

Lemma step_abort_calls (s : Step) (e0 : error) (last : list Event) :
  step_abort s e0 last -> calls last = step_calls s.
Proof.
  unfold step_calls.
  intros [(Hx & e & -> & _)|(Hu & -> & _)].
  - rewrite Hx. reflexivity.
  - apply unknown_type_eqb in Hu. destruct Hu as [-> ->]. reflexivity.
Qed.

(** Where [Run] stopped, it had invoked the steps declared up to and
    including the one that aborted, and no other. *)
Lemma aborted_calls_prefix (stages : list Stage) (a : nat) (stage : Stage)
      (k : nat) (step : Step) (t : list Event) (err : error) :
  aborted_at stages a stage k step t err ->
  workflow_calls stages =
  (calls t ++ flat_map step_calls (skipn (S k) (Stage_Steps stage))
     ++ workflow_calls (skipn (S a) stages))%list.
Proof.
  intros (Hn1 & Hn2 & e0 & pre & last & -> & _ & Hc & Ha & _).
  rewrite calls_app, Hc, (step_abort_calls _ _ _ Ha).
  unfold workflow_calls at 1. rewrite (flat_map_split _ _ _ _ Hn1).
  unfold stage_calls at 2. rewrite (flat_map_split _ _ _ _ Hn2).
  unfold workflow_calls. rewrite <- !app_assoc. reflexivity.
Qed.

(** [DryRun] depends on the path, the loader and the writer of its runner
    alone. *)
Lemma DryRun_steps_same {W} (r r' : Runner W) :
  Out r = Out r' ->
  forall (i : nat) (steps : list Step) (j : nat) (w : W),
    DryRun_steps r i j steps w = DryRun_steps r' i j steps w.
Proof.
  intros Ho i steps. induction steps as [|s rest IH]; intros j w;
    [reflexivity|].
  cbn [DryRun_steps]. unfold bind, Fprintf, DryRun_step.
  cbn [val world events]. rewrite Ho.
  destruct (Step_Type s =? StepTypeExec);
    [|destruct (Step_Type s =? StepTypeSleep)];
    unfold Fprintf; cbn [ret val world events]; rewrite ?Ho, IH; reflexivity.
Qed.

Lemma DryRun_stages_same {W} (r r' : Runner W) :
  Out r = Out r' ->
  forall (stages : list Stage) (i : nat) (w : W),
    DryRun_stages r i stages w = DryRun_stages r' i stages w.
Proof.
  intros Ho stages. induction stages as [|s rest IH]; intros i w;
    [reflexivity|].
  cbn [DryRun_stages]. unfold bind, Fprintf. cbn [val world events].
  rewrite Ho, (DryRun_steps_same r r' Ho), IH. reflexivity.
Qed.

Lemma DryRun_same {W} (r r' : Runner W) (w : W) :
  path r = path r' -> LoadWorkflow r = LoadWorkflow r' -> Out r = Out r' ->
  DryRun r w = DryRun r' w.
Proof.
  intros Hp Hl Ho. unfold DryRun, bind, Fprintf, callLoadWorkflow.
  cbn [val world events]. rewrite Hp, Hl, Ho.
  destruct (fst (LoadWorkflow r' (path r')
                              (Out r' (render (DryStart (path r'))) w)));
    [|reflexivity].
  unfold bind, Fprintf. cbn [val world events].
  rewrite ?Ho, (DryRun_stages_same r r' Ho). reflexivity.
Qed.

(** ** The claims about the engine *)

(** C1, as worded, does not hold: with a loader that returns a stage of
    two commands and a [RunCmd] that fails, [Run] invokes the first command
    and never the second. *)
Lemma Run_invokes_every_step_fails : ~ Run_invokes_every_step.
Proof.
  intro H.
  specialize (H runner_test.Mock runner_test.failing_runner runner_test.mock0
                (mkWorkflow "mock-workflow" "" runner_test.two_commands)
                eq_refl).
  vm_compute in H. discriminate H.
Qed.

(** C1, amended. For the workflow the loader returned, the invocations of
    the CommandRunner and of the DelayFn that [Run] makes all come after
    the call of the loader and are, in order, an initial segment of the
    stage-major, step-minor sequence of the declared steps (the argv of an
    exec step, the seconds of a sleep step as a duration); when [Run]
    returns no error they are that whole sequence, one invocation per exec
    and per sleep step. *)
Theorem Run_invokes_steps_in_declared_order
        (W : Type) (r : Runner W) (w : W) (wf : Workflow) :
  Run_load r w = inl wf ->
  exists rest post,
    events (Run r w) =
      EvWrite (RunStart (path r)) :: EvLoad (path r) (inl wf) :: rest /\
    workflow_calls (Workflow_Stages wf) = (calls rest ++ post)%list /\
    (val (Run r w) = None -> post = []).
Proof.
  intro Hl. destruct (Run_outcome r w wf Hl) as (rest & He & Ho).
  destruct (val (Run r w)) as [err|].
  - destruct Ho as (a & stage & k & step & Ha).
    exists rest. eexists. split; [exact He|].
    split; [exact (aborted_calls_prefix _ _ _ _ _ _ _ Ha)|discriminate].
  - destruct Ho as (_ & Hc & _). exists rest, [].
    split; [exact He|]. split; [now rewrite app_nil_r|reflexivity].
Qed.

Lemma Run_invokes_steps_in_declared_order_witness :
  calls (events (Run runner_test.success_runner runner_test.mock0)) =
  [CallExec ["go"; "build"]; CallDelay 2000000000; CallExec ["go"; "test"]].
Proof.
  destruct (Run_invokes_steps_in_declared_order
              runner_test.Mock runner_test.success_runner runner_test.mock0
              (mkWorkflow "mock-workflow" "" runner_test.build_test_stages)
              eq_refl) as (rest & post & He & Hc & Hp).
  rewrite He. change (calls rest = workflow_calls runner_test.build_test_stages).
  cbn [Workflow_Stages] in Hc. rewrite Hc, (Hp eq_refl).
  symmetry. apply app_nil_r.
Defined.

(** C2. If a command fails during [Run], nothing happens after that
    invocation: it is the last event of the run, so no later step of any
    stage is invoked, and the steps invoked before it are exactly the ones
    declared before the failing step. [Run] returns an error whose message
    is "stage '<stage>', step '<step>': command execution failed: "
    followed by the message of the command's error, for the stage and the
    step that own the command. *)
Theorem Run_aborts_on_command_failure
        (W : Type) (r : Runner W) (w : W) (wf : Workflow)
        (pre post : list Event) (argv : list string) (e : error) :
  Run_load r w = inl wf ->
  events (Run r w) = (pre ++ EvRunCmd argv (Some e) :: post)%list ->
  post = [] /\
  exists a stage k step,
    nth_error (Workflow_Stages wf) a = Some stage /\
    nth_error (Stage_Steps stage) k = Some step /\
    Step_Type step = StepTypeExec /\ Step_Run step = argv /\
    calls pre =
      (workflow_calls (firstn a (Workflow_Stages wf))
         ++ flat_map step_calls (firstn k (Stage_Steps stage)))%list /\
    exists err,
      val (Run r w) = Some err /\
      Unwrap err = Some (Errorf_w "command execution failed: " e) /\
      Error err = "stage '" ++ Stage_Name stage ++ "', step '"
                    ++ Step_Name step ++ "': command execution failed: "
                    ++ Error e.
Proof.
  intros Hl Hev. destruct (Run_outcome r w wf Hl) as (rest & He & Ho).
  assert (Hin : In (EvRunCmd argv (Some e)) rest).
  { assert (H : In (EvRunCmd argv (Some e)) (events (Run r w)))
      by (rewrite Hev; apply in_elt).
    rewrite He in H. destruct H as [H|[H|H]]; try discriminate H. exact H. }
  destruct (val (Run r w)) as [err|].
  2:{ destruct Ho as (Hnf & _). now apply no_failure_not_in in Hin. }
  destruct Ho as (a & stage & k & step & Hn1 & Hn2 & e0 & p & last
                  & Hr & Hp & Hc & Ha & ->).
  destruct Ha as [(Hx & e' & -> & ->)|(_ & -> & _)].
  2:{ rewrite app_nil_r in Hr. subst p.
      now apply no_failure_not_in in Hin. }
  rewrite Hr in He. rewrite Hev in He.
  assert (Hp' : no_failure (EvWrite (RunStart (path r))
                              :: EvLoad (path r) (inl wf) :: p))
    by (repeat constructor; exact Hp).
  destruct (unique_failure _ pre post _ argv e Hp' (eq_sym He))
    as (-> & Hx' & ->).
  injection Hx' as <- <-.
  split; [reflexivity|]. exists a, stage, k, step.
  repeat split; auto. eexists. split; [reflexivity|]. split; [reflexivity|].
  unfold Errorf_w. cbn [Error].
  do 3 (rewrite ?string_app_assoc; simpl). reflexivity.
Qed.

Lemma Run_aborts_on_command_failure_witness :
  val (Run runner_test.failing_runner runner_test.mock0) <> None /\
  calls (events (Run runner_test.failing_runner runner_test.mock0)) =
  [CallExec ["go"; "build"]] /\
  option_map Error (val (Run runner_test.failing_runner runner_test.mock0)) =
  Some "stage 'build', step 'compile': command execution failed: command failed".
Proof.
  destruct (Run_aborts_on_command_failure
              runner_test.Mock runner_test.failing_runner runner_test.mock0
              (mkWorkflow "mock-workflow" "" runner_test.two_commands)
              [EvWrite (RunStart "test.yaml");
               EvLoad "test.yaml"
                 (inl (mkWorkflow "mock-workflow" "" runner_test.two_commands));
               EvWrite (RunStage 1 "build");
               EvWrite (RunStep 1 1 "compile" StepTypeExec)]
              [] ["go"; "build"] (errors_New "command failed")
              eq_refl eq_refl)
    as (_ & a & stage & k & step & _ & _ & _ & _ & _ & err & Hv & _).
  split; [rewrite Hv; discriminate|]. split; reflexivity.
Defined.




(** C8. [Run] and [DryRun] write their start marker, which names the
    workflow source, before they call the loader: the write is the first
    event and the call of the loader the second, made in the world the
    marker has been written to. When the loader fails these are the only
    two events and the loader's error is returned, so every other line is
    written after a successful load. *)
Theorem start_marker_precedes_load (W : Type) (r : Runner W) (w : W) :
  (exists rest,
      events (Run r w) =
        EvWrite (RunStart (path r)) :: EvLoad (path r) (Run_load r w) :: rest /\
      render (RunStart (path r)) = "Executing workflow: " ++ path r ++ nl /\
      forall err, Run_load r w = inr err ->
                  rest = [] /\ val (Run r w) = Some err) /\
  (exists rest,
      events (DryRun r w) =
        EvWrite (DryStart (path r)) :: EvLoad (path r) (DryRun_load r w)
          :: rest /\
      render (DryStart (path r)) =
        "[DRY-RUN] Would execute workflow: " ++ path r ++ nl /\
      forall err, DryRun_load r w = inr err ->
                  rest = [] /\ val (DryRun r w) = Some err).
Proof.
  split.
  - rewrite Run_unfold. cbv zeta.
    destruct (Run_load r w) as [wf|err0] eqn:El.
    + destruct (val (Run_stages r 0 (Workflow_Stages wf) _));
        eexists; (split; [reflexivity|]); (split; [reflexivity|]);
        intros err H; discriminate H.
    + eexists. split; [reflexivity|]. split; [reflexivity|].
      intros err [= <-]. auto.
  - rewrite DryRun_events, DryRun_val. eexists. split; [reflexivity|].
    split; [reflexivity|]. intros err ->. auto.
Qed.

Lemma start_marker_precedes_load_witness :
  events (Run runner_test.load_error_runner runner_test.mock0) =
  [EvWrite (RunStart "test.yaml");
   EvLoad "test.yaml" (inr (errors_New "failed to load workflow"))] /\
  events (DryRun runner_test.load_error_runner runner_test.mock0) =
  [EvWrite (DryStart "test.yaml");
   EvLoad "test.yaml" (inr (errors_New "failed to load workflow"))].
Proof.
  destruct (start_marker_precedes_load
              runner_test.Mock runner_test.load_error_runner runner_test.mock0)
    as [(rest & He & _ & Hr) (rest' & He' & _ & Hr')].
  destruct (Hr _ eq_refl) as [-> _]. destruct (Hr' _ eq_refl) as [-> _].
  split; [exact He|exact He'].
Defined.

Lemma DryRun_lines {W} (r : Runner W) (w : W) (wf : Workflow) :
  DryRun_load r w = inl wf ->
  lines (events (DryRun r w)) = dry_lines (path r) (Workflow_Stages wf).
Proof.
  intro Hl. rewrite DryRun_events, Hl. cbn. unfold dry_lines. f_equal.
  apply lines_writes.
Qed.

Lemma run_markers_of_stage (ks : nat * Stage) :
  filter is_run_marker (run_stage_lines ks) = run_stage_markers ks.
Proof.
  unfold run_stage_lines, run_stage_markers. cbn [filter is_run_marker].
  rewrite filter_app. cbn [filter is_run_marker]. rewrite app_nil_r. f_equal.
  generalize (numbered_from 1 (Stage_Steps (snd ks))). intro l.
  induction l as [|js l IH]; [reflexivity|].
  cbn [flat_map map]. rewrite filter_app, IH.
  unfold run_step_lines, step_notice. cbn [filter is_run_marker].
  destruct (Step_Type (snd js) =? StepTypeExec); [reflexivity|].
  now destruct (Step_Type (snd js) =? StepTypeSleep).
Qed.

(** C7. A [Run] that returns no error has written, in order: the start
    marker naming the workflow source; for each stage in declared order
    its start marker with the 1-based index and the name of the stage,
    then one marker per step with the stage and step indices, the name
    and the type (followed by the notice of a sleep), then the stage's
    completion line; and at the end the completion marker. For the
    two-stage workflow of the example the output contains
    "STAGE 1: build", then "STAGE 2: test", then the completion marker. *)
Theorem Run_trace_of_successful_run
        (W : Type) (r : Runner W) (w : W) (wf : Workflow) :
  Run_load r w = inl wf ->
  val (Run r w) = None ->
  lines (events (Run r w)) = run_lines (path r) (Workflow_Stages wf) /\
  filter is_run_marker (lines (events (Run r w))) =
    run_markers (path r) (Workflow_Stages wf) /\
  (Workflow_Stages wf = runner_test.build_test_stages ->
   exists a b c d,
     output (events (Run r w)) =
     a ++ "STAGE 1: build" ++ b ++ "STAGE 2: test" ++ c
       ++ "✓ Workflow execution completed." ++ d).
Proof.
  intros Hl Hv. destruct (Run_outcome r w wf Hl) as (rest & _ & Ho).
  rewrite Hv in Ho. destruct Ho as (_ & _ & Hlines & _).
  split; [exact Hlines|]. split.
  - rewrite Hlines. unfold run_lines, run_markers.
    cbn [filter is_run_marker]. rewrite filter_app.
    cbn [filter is_run_marker]. rewrite filter_flat_map. f_equal. f_equal.
    apply flat_map_ext. intro ks. apply run_markers_of_stage.
  - intro Hs. unfold output. rewrite Hlines, Hs.
    exists ("Executing workflow: " ++ path r ++ nl ++ nl ++ "=== ").
    exists (" ===" ++ nl ++ "STEP 1.1: compile (exec)" ++ nl
              ++ "STEP 1.2: wait (sleep)" ++ nl
              ++ "  Sleeping for 2 seconds..." ++ nl
              ++ "=== STAGE 1 COMPLETED ===" ++ nl ++ nl ++ "=== ").
    exists (" ===" ++ nl ++ "STEP 2.1: run-tests (exec)" ++ nl
              ++ "=== STAGE 2 COMPLETED ===" ++ nl ++ nl).
    exists nl.
    cbn. rewrite !string_app_assoc. reflexivity.
Qed.

Lemma Run_trace_of_successful_run_witness :
  lines (events (Run runner_test.success_runner runner_test.mock0)) =
  [RunStart "test-workflow.yaml";
   RunStage 1 "build";
   RunStep 1 1 "compile" StepTypeExec;
   RunStep 1 2 "wait" StepTypeSleep; RunSleeping 2;
   RunStageCompleted 1;
   RunStage 2 "test";
   RunStep 2 1 "run-tests" StepTypeExec;
   RunStageCompleted 2;
   RunCompleted].
Proof.
  apply (Run_trace_of_successful_run
           runner_test.Mock runner_test.success_runner runner_test.mock0
           (mkWorkflow "mock-workflow" "" runner_test.build_test_stages)
           eq_refl eq_refl).
Defined.

(** ** Indices in errors and in markers *)

Lemma Stage_Validate_steps_at (steps : list Step) :
  forall (b j : nat) (step : Step) (e : error),
    nth_error steps j = Some step ->
    Forall (fun s => Step_Validate s = None) (firstn j steps) ->
    Step_Validate step = Some e ->
    Stage_Validate_steps b steps =
    Some (Errorf_w ("step " ++ fmt_d_nat (b + j) ++ " (" ++ Step_Name step
                      ++ "): ") e).
Proof.
  induction steps as [|s rest IH]; intros b [|j] step e Hn Hf Hv;
    try discriminate Hn; cbn in Hn |- *.
  - injection Hn as ->. rewrite Hv, Nat.add_0_r. reflexivity.
  - inversion Hf as [|? ? Hs Hf']; subst. rewrite Hs.
    rewrite (IH (S b) j step e Hn Hf' Hv), Nat.add_succ_r. reflexivity.
Qed.

Lemma Workflow_Validate_stages_at (stages : list Stage) :
  forall (b i : nat) (stage : Stage) (e : error),
    nth_error stages i = Some stage ->
    Forall (fun s => Stage_Validate s = None) (firstn i stages) ->
    Stage_Validate stage = Some e ->
    Workflow_Validate_stages b stages =
    Some (Errorf_w ("stage " ++ fmt_d_nat (b + i) ++ " (" ++ Stage_Name stage
                      ++ "): ") e).
Proof.
  induction stages as [|s rest IH]; intros b [|i] stage e Hn Hf Hv;
    try discriminate Hn; cbn in Hn |- *.
  - injection Hn as ->. rewrite Hv, Nat.add_0_r. reflexivity.
  - inversion Hf as [|? ? Hs Hf']; subst. rewrite Hs.
    rewrite (IH (S b) i stage e Hn Hf' Hv), Nat.add_succ_r. reflexivity.
Qed.

Lemma in_numbered_from {A} (l : list A) :
  forall (b n : nat) (x : A),
    In (n, x) (numbered_from b l) ->
    exists i, nth_error l i = Some x /\ n = b + i.
Proof.
  induction l as [|a l IH]; intros b n x H; [contradiction|].
  rewrite numbered_from_cons in H. destruct H as [H|H].
  - injection H as <- <-. exists 0. now rewrite Nat.add_0_r.
  - destruct (IH _ _ _ H) as (i & Hi & ->). exists (S i).
    now rewrite Nat.add_succ_r.
Qed.

Lemma step_abort_lines (s : Step) (e0 : error) (last : list Event) :
  step_abort s e0 last -> lines last = [].
Proof. now intros [(_ & e & -> & _)|(_ & -> & _)]. Qed.

Section Markers.
Context {W : Type} (r : Runner W).

(** Whatever the outcome, the lines of [Run] are an initial segment of the
    lines of a run without error. *)
Lemma Run_steps_lines_prefix (i : nat) (stage : Stage) (steps : list Step) :
  forall (j : nat) (w : W),
  exists post,
    flat_map (run_step_lines (i + 1)) (numbered_from (j + 1) steps) =
    (lines (events (Run_steps r i stage j steps w)) ++ post)%list.
Proof.
  induction steps as [|s rest IH]; intros j w.
  - now exists [].
  - rewrite Run_steps_cons. cbv zeta.
    set (mark := RunStep (i + 1) (j + 1) (Step_Name s) (Step_Type s)).
    destruct (executeStep_outcome r s (Out r (render mark) w)) as [_ Ho].
    set (r1 := executeStep r s (Out r (render mark) w)) in *.
    rewrite numbered_from_cons. cbn [flat_map].
    unfold run_step_lines at 1. cbn [fst snd]. fold mark.
    destruct (val r1) as [e0|]; cbn [events].
    + change (lines (EvWrite mark :: events r1))
        with (mark :: lines (events r1)).
      rewrite (step_abort_lines _ _ _ Ho). cbn [app]. eexists. reflexivity.
    + destruct Ho as (_ & _ & Hl).
      destruct (IH (S j) (world r1)) as (post & Hp).
      change (lines (EvWrite mark :: events r1
                       ++ events (Run_steps r i stage (S j) rest (world r1))))
        with (mark :: lines (events r1
                       ++ events (Run_steps r i stage (S j) rest (world r1)))).
      rewrite lines_app, Hl. exists post. cbn [app]. f_equal.
      rewrite <- app_assoc. f_equal. exact Hp.
Qed.

Lemma Run_stages_lines_prefix (stages : list Stage) :
  forall (i : nat) (w : W),
  exists post,
    flat_map run_stage_lines (numbered_from (i + 1) stages) =
    (lines (events (Run_stages r i stages w)) ++ post)%list.
Proof.
  induction stages as [|s rest IH]; intros i w.
  - now exists [].
  - rewrite Run_stages_cons. cbv zeta.
    set (mark := RunStage (i + 1) (Stage_Name s)).
    set (done := RunStageCompleted (i + 1)).
    pose proof (Run_steps_outcome r i s (Stage_Steps s) 0
                                  (Out r (render mark) w)) as Ho.
    destruct (Run_steps_lines_prefix i s (Stage_Steps s) 0
                                     (Out r (render mark) w)) as (p1 & Hp1).
    cbv zeta in Ho.
    set (r1 := Run_steps r i s 0 (Stage_Steps s) (Out r (render mark) w)) in *.
    rewrite numbered_from_cons. cbn [flat_map].
    unfold run_stage_lines at 1. cbn [fst snd]. fold mark. fold done.
    destruct (val r1) as [e|]; cbn [events].
    + change (lines (EvWrite mark :: events r1))
        with (mark :: lines (events r1)).
      change (numbered_from 1 (Stage_Steps s))
        with (numbered_from (0 + 1) (Stage_Steps s)).
      rewrite Hp1. cbn [app]. eexists. f_equal.
      rewrite <- !app_assoc. reflexivity.
    + destruct Ho as (_ & _ & Hl & _).
      destruct (IH (S i) (Out r (render done) (world r1))) as (post & Hp).
      set (r2 := Run_stages r (S i) rest (Out r (render done) (world r1))) in *.
      change (lines (EvWrite mark :: events r1 ++ EvWrite done :: events r2))
        with (mark :: lines (events r1 ++ EvWrite done :: events r2)).
      rewrite lines_app, Hl.
      change (lines (EvWrite done :: events r2))
        with (done :: lines (events r2)).
      exists post. cbn [app]. f_equal. rewrite <- !app_assoc. f_equal.
      cbn [app]. f_equal. exact Hp.
Qed.

Lemma Run_lines_prefix (w : W) (wf : Workflow) :
  Run_load r w = inl wf ->
  exists post,
    run_lines (path r) (Workflow_Stages wf) =
    (lines (events (Run r w)) ++ post)%list.
Proof.
  intro Hl. rewrite Run_unfold. cbv zeta. rewrite Hl.
  set (w1 := snd (LoadWorkflow r (path r)
                               (Out r (render (RunStart (path r))) w))).
  pose proof (Run_stages_outcome r (Workflow_Stages wf) 0 w1) as Ho.
  destruct (Run_stages_lines_prefix (Workflow_Stages wf) 0 w1) as (p1 & Hp1).
  cbv zeta in Ho.
  set (r1 := Run_stages r 0 (Workflow_Stages wf) w1) in *.
  unfold run_lines.
  change (numbered_from 1 (Workflow_Stages wf))
    with (numbered_from (0 + 1) (Workflow_Stages wf)).
  destruct (val r1) as [e|]; cbn [events].
  - change (lines (EvWrite (RunStart (path r)) :: EvLoad (path r) (inl wf)
                     :: events r1))
      with (RunStart (path r) :: lines (events r1)).
    rewrite Hp1. eexists. cbn [app]. f_equal. rewrite <- app_assoc.
    reflexivity.
  - destruct Ho as (_ & _ & Hli & _).
    change (lines (EvWrite (RunStart (path r)) :: EvLoad (path r) (inl wf)
                     :: events r1 ++ [EvWrite RunCompleted]))
      with (RunStart (path r) :: lines (events r1 ++ [EvWrite RunCompleted])).
    rewrite lines_app, Hli. exists []. now rewrite app_nil_r.
Qed.

End Markers.

Lemma in_step_notice (l : Line) (s : Step) :
  In l (step_notice s) -> exists z, l = RunSleeping z.
Proof.
  unfold step_notice. destruct (Step_Type s =? StepTypeExec); [contradiction|].
  destruct (Step_Type s =? StepTypeSleep); [|contradiction].
  intros [<-|[]]. now eexists.
Qed.

(** ** When [Run] returns no error *)

Section Success.
Context {W : Type} (r : Runner W).
Hypothesis commands_succeed : forall argv w, fst (RunCmd r argv w) = None.

Lemma Run_steps_succeeds (i : nat) (stage : Stage) (steps : list Step) :
  Forall known_type steps ->
  forall (j : nat) (w : W), val (Run_steps r i stage j steps w) = None.
Proof.
  induction 1 as [|s rest Hs Hrest IH]; intros j w; [reflexivity|].
  rewrite Run_steps_cons. cbv zeta.
  destruct (step_type_cases s) as [Hx|[[Hx Hsl]|Hu]].
  - rewrite (executeStep_exec r s _ Hx). cbn [val world].
    rewrite commands_succeed. cbn [val]. apply IH.
  - rewrite (executeStep_sleep r s _ Hx Hsl). cbn [val world]. apply IH.
  - apply unknown_type_eqb in Hu. contradiction.
Qed.

Lemma Run_stages_succeeds (stages : list Stage) :
  Forall (fun s => Forall known_type (Stage_Steps s)) stages ->
  forall (i : nat) (w : W), val (Run_stages r i stages w) = None.
Proof.
  induction 1 as [|s rest Hs Hrest IH]; intros i w; [reflexivity|].
  rewrite Run_stages_cons. cbv zeta.
  rewrite (Run_steps_succeeds i s (Stage_Steps s) Hs). cbn [val]. apply IH.
Qed.

(** A workflow that passes validation runs without error when no command
    fails. *)
Lemma Run_succeeds (w : W) (wf : Workflow) :
  Run_load r w = inl wf ->
  Workflow_Validate wf = None ->
  val (Run r w) = None.
Proof.
  intros Hl Hv. rewrite Run_unfold. cbv zeta. rewrite Hl.
  rewrite Run_stages_succeeds; [reflexivity|].
  apply Workflow_Validate_ok in Hv. destruct Hv as (_ & _ & Hv).
  revert Hv. apply Forall_impl. intros s (_ & _ & Hs).
  revert Hs. apply Forall_impl. intros st (_ & _ & _ & Hk). exact Hk.
Qed.

End Success.

(** ** The tests of the repository, replayed on the model *)

(** [TestRunner_Run_Success]: the recorded calls, and the buffer holds the
    output. *)
Example TestRunner_Run_Success :
  let res := Run runner_test.success_runner runner_test.mock0 in
  val res = None /\
  runner_test.cmdCalls (world res) = [["go"; "build"]; ["go"; "test"]] /\
  runner_test.sleepCalls (world res) = [(2 * time_Second)%Z] /\
  runner_test.out (world res) = output (events res).
Proof. repeat split. Qed.

(** [TestRunner_EmptyWorkflow]: [Run] handles a workflow without stages. *)
Example TestRunner_EmptyWorkflow :
  let r := mkRunner "test.yaml" (runner_test.mockLoadWorkflow [])
                    runner_test.mockRunCmd runner_test.mockSleep
                    runner_test.bufferOut in
  val (Run r runner_test.mock0) = None /\
  lines (events (Run r runner_test.mock0)) =
  [RunStart "test.yaml"; RunCompleted].
Proof. repeat split. Qed.

(** [TestRunner_DryRun_Success] *)
Example TestRunner_DryRun_Success :
  let stages :=
    [ mkStage "deploy"
        [ mkStep "terraform-apply" StepTypeExec ["terraform"; "apply"] 0;
          mkStep "wait-for-deployment" StepTypeSleep [] 10 ] ] in
  let r := mkRunner "test.yaml" (runner_test.mockLoadWorkflow stages)
                    runner_test.mockRunCmd runner_test.mockSleep
                    runner_test.bufferOut in
  let res := DryRun r runner_test.mock0 in
  val res = None /\
  runner_test.cmdCalls (world res) = [] /\
  runner_test.sleepCalls (world res) = [] /\
  map render (lines (events res)) =
  [ "[DRY-RUN] Would execute workflow: test.yaml" ++ nl;
    nl ++ "[DRY-RUN] === STAGE 1: deploy ===" ++ nl;
    "[DRY-RUN] STEP 1.1: terraform-apply (exec)" ++ nl;
    "[DRY-RUN]   Would execute command: [terraform apply]" ++ nl;
    "[DRY-RUN] STEP 1.2: wait-for-deployment (sleep)" ++ nl;
    "[DRY-RUN]   Would sleep for 10 seconds" ++ nl;
    "[DRY-RUN] === STAGE 1 COMPLETED ===" ++ nl;
    nl ++ "[DRY-RUN] ✓ Workflow simulation completed." ++ nl ].
Proof. repeat split. Qed.

(** [TestValidateSteps], [TestValidateStages] and [TestValidateWorkflows]:
    the cases that must be accepted and some that must be rejected. *)
Example TestValidate :
  Step_Validate dsl_test.valid_exec_step = None /\
  Step_Validate dsl_test.valid_sleep_step = None /\
  Step_Validate (mkStep "step3" "" ["echo"; "Hello"] 0) =
    Some (Errorf "unknown step type: ") /\
  Step_Validate (mkStep "step5" StepTypeSleep [] 0) =
    Some (errors_New "sleep step requires positive 'seconds' value") /\
  Workflow_Validate dsl_test.valid_workflow = None /\
  option_map Error (Workflow_Validate dsl_test.workflow_with_invalid_stage) =
    Some "stage 0 (stage2): stage must have at least one step".
Proof. repeat split. Qed.

(** * Further properties of the code *)

(** ** The validator, level by level *)

(** X1. [Step.Validate], called on its own, accepts a step exactly when
    the step invariants hold; when it rejects, the error is one of the four
    step causes with no location around it, and the rule it names is
    broken in the step. *)
Theorem Step_Validate_alone (s : Step) :
  (Step_Validate s = None <-> step_invariants s) /\
  (forall e, Step_Validate s = Some e ->
             Unwrap e = None /\
             exists c, e = cause_error c /\ step_violates s c).
Proof.
  split; [apply Step_Validate_ok|].
  intros e H. destruct (Step_Validate_cause s e H) as (c & -> & Hc).
  split; [now destruct c|]. now exists c.
Qed.

Lemma Step_Validate_alone_witness :
  step_invariants dsl_test.valid_sleep_step /\
  exists c, step_violates dsl_test.exec_step_missing_run c.
Proof.
  split.
  - apply (proj1 (Step_Validate_alone dsl_test.valid_sleep_step)).
    reflexivity.
  - destruct (proj2 (Step_Validate_alone dsl_test.exec_step_missing_run)
                    _ eq_refl) as (_ & c & _ & Hc).
    now exists c.
Defined.

(** X2. [Stage.Validate], called on its own, accepts a stage exactly when
    the stage invariants hold; when it rejects, the innermost cause is a
    stage or a step cause whose rule is broken in the stage, and the error
    is wrapped once (with the step's index and name) exactly when the
    cause lies in a step. *)
Theorem Stage_Validate_alone (s : Stage) :
  (Stage_Validate s = None <-> stage_invariants s) /\
  (forall e, Stage_Validate s = Some e ->
             exists c, root_cause e = cause_error c /\ stage_violates s c /\
                       (Unwrap e = None <->
                        c = MissingStageName \/ c = EmptyStepList)).
Proof.
  split; [apply Stage_Validate_ok|].
  intros e H.
  destruct (Stage_Validate_fail s e H)
    as [(c & Hc & -> & Hv)|(j & step & c & Hj & _ & _ & Hv & ->)].
  - exists c. split; [now destruct c|]. split; [exact Hv|].
    split; [intros _; exact Hc|]. now destruct c.
  - exists c. split; [now destruct c|]. split.
    + apply (step_violates_stage s step c); [|exact Hv].
      now apply nth_error_In with j.
    + split; [discriminate|].
      destruct (step_violates_cause _ _ Hv) as (_ & _ & H1 & H2).
      intros [Hc|Hc]; contradiction.
Qed.

Lemma Stage_Validate_alone_witness :
  stage_invariants (mkStage "stage1" [dsl_test.valid_exec_step]) /\
  exists c, stage_violates (mkStage "stage3" [dsl_test.exec_step_missing_run]) c.
Proof.
  split.
  - apply (proj1 (Stage_Validate_alone
                    (mkStage "stage1" [dsl_test.valid_exec_step]))).
    reflexivity.
  - destruct (proj2 (Stage_Validate_alone
                       (mkStage "stage3" [dsl_test.exec_step_missing_run]))
                    _ eq_refl) as (c & _ & Hc & _).
    now exists c.
Defined.

Lemma Workflow_Validate_stages_app (l1 l2 : list Stage) :
  forall i : nat,
    Workflow_Validate_stages i (l1 ++ l2) =
    match Workflow_Validate_stages i l1 with
    | Some e => Some e
    | None => Workflow_Validate_stages (i + length l1) l2
    end.
Proof.
  induction l1 as [|s l1 IH]; intro i; cbn.
  - now rewrite Nat.add_0_r.
  - destruct (Stage_Validate s); [reflexivity|].
    now rewrite IH, Nat.add_succ_r.
Qed.

(** X3. Stages added after the existing ones never change what
    [Workflow.Validate] reports for a workflow that has stages: an error
    stays the same error, and an accepted workflow gets the first error
    of the added stages, with indices that continue after the existing
    ones. *)
Theorem Workflow_Validate_append (w : Workflow) (more : list Stage) :
  Workflow_Stages w <> [] ->
  Workflow_Validate
    (mkWorkflow (Workflow_Name w) (Workflow_Description w)
                (Workflow_Stages w ++ more)) =
  match Workflow_Validate w with
  | Some e => Some e
  | None => Workflow_Validate_stages (length (Workflow_Stages w)) more
  end.
Proof.
  intro Hne. unfold Workflow_Validate. cbn [Workflow_Name Workflow_Stages].
  destruct (Workflow_Name w =? ""); [reflexivity|].
  assert (H1 : Nat.eqb (length (Workflow_Stages w)) 0 = false)
    by now apply length_eqb_0_false.
  assert (H2 : Nat.eqb (length (Workflow_Stages w ++ more)) 0 = false).
  { apply length_eqb_0_false. intro H. apply app_eq_nil in H. tauto. }
  rewrite H1, H2. apply Workflow_Validate_stages_app.
Qed.

Lemma Workflow_Validate_append_witness :
  Workflow_Validate
    (mkWorkflow (Workflow_Name dsl_test.valid_workflow)
                (Workflow_Description dsl_test.valid_workflow)
                (Workflow_Stages dsl_test.valid_workflow ++ [mkStage "" []])) =
  Some (Errorf_w "stage 1 (): " (errors_New "stage name is required")).
Proof.
  rewrite (Workflow_Validate_append dsl_test.valid_workflow [mkStage "" []]).
  - reflexivity.
  - discriminate.
Defined.

(** ** Seconds as a duration *)

Lemma wrap64_small (z : Z) :
  (- 2 ^ 63 <= z < 2 ^ 63)%Z -> wrap64 z = z.
Proof.
  intro H. unfold wrap64. rewrite Z.mod_small; lia.
Qed.

(** ** Building a runner *)

Section Construction.
Import runner_new.
Context {W : Type}.

Lemma fold_settings_path (ss : list (Setting W)) :
  forall init : RunnerFields W,
    f_path (fold_left (fun r opt => opt r) (map option_of ss) init)
    = f_path init.
Proof.
  induction ss as [|s rest IH]; intro init; [reflexivity|].
  cbn [map fold_left]. rewrite IH. now destruct s.
Qed.

Lemma fold_settings_Out (ss : list (Setting W)) :
  forall init : RunnerFields W,
    f_Out (fold_left (fun r opt => opt r) (map option_of ss) init)
    = match last_Out ss with Some v => v | None => f_Out init end.
Proof.
  induction ss as [|s rest IH]; intro init; [reflexivity|].
  cbn [map fold_left last_Out]. rewrite IH.
  destruct (last_Out rest); [reflexivity|]. now destruct s.
Qed.

Lemma fold_settings_LoadWorkflow (ss : list (Setting W)) :
  forall init : RunnerFields W,
    f_LoadWorkflow (fold_left (fun r opt => opt r) (map option_of ss) init)
    = match last_LoadWorkflow ss with
      | Some v => v
      | None => f_LoadWorkflow init
      end.
Proof.
  induction ss as [|s rest IH]; intro init; [reflexivity|].
  cbn [map fold_left last_LoadWorkflow]. rewrite IH.
  destruct (last_LoadWorkflow rest); [reflexivity|]. now destruct s.
Qed.

Lemma fold_settings_RunCmd (ss : list (Setting W)) :
  forall init : RunnerFields W,
    f_RunCmd (fold_left (fun r opt => opt r) (map option_of ss) init)
    = match last_RunCmd ss with Some v => v | None => f_RunCmd init end.
Proof.
  induction ss as [|s rest IH]; intro init; [reflexivity|].
  cbn [map fold_left last_RunCmd]. rewrite IH.
  destruct (last_RunCmd rest); [reflexivity|]. now destruct s.
Qed.

Lemma fold_settings_Sleep (ss : list (Setting W)) :
  forall init : RunnerFields W,
    f_Sleep (fold_left (fun r opt => opt r) (map option_of ss) init)
    = match last_Sleep ss with Some v => v | None => f_Sleep init end.
Proof.
  induction ss as [|s rest IH]; intro init; [reflexivity|].
  cbn [map fold_left last_Sleep]. rewrite IH.
  destruct (last_Sleep rest); [reflexivity|]. now destruct s.
Qed.

(** X5. For options built with [WithOut], [WithLoadWorkflow], [WithRunCmd]
    and [WithSleep], whatever their number and order, [NewRunner] keeps
    the given path and gives each collaborator the value of the last
    option that sets it, or its default when no option does; it returns
    the error "runner not properly configured" exactly when one of these
    four values is nil. *)
Theorem NewRunner_last_setting_wins
        (d : Defaults W) (p : string) (ss : list (Setting W)) :
  NewRunner d p (map option_of ss) =
  match chosen (last_LoadWorkflow ss) (LoadWorkflowFromFile d),
        chosen (last_RunCmd ss) (default_RunCmd d),
        chosen (last_Sleep ss) (time_Sleep d),
        chosen (last_Out ss) (os_Stdout d) with
  | Some load, Some run, Some sleep, Some out =>
      inl (mkRunner p load run sleep out)
  | _, _, _, _ => inr (Errorf "runner not properly configured")
  end.
Proof.
  unfold NewRunner. cbv zeta.
  rewrite fold_settings_path, fold_settings_LoadWorkflow,
    fold_settings_RunCmd, fold_settings_Sleep, fold_settings_Out.
  reflexivity.
Qed.

End Construction.

(** ** Runs of a validated workflow *)

Lemma Run_calls_prefix {W} (r : Runner W) (w : W) (wf : Workflow) :
  Run_load r w = inl wf ->
  exists post,
    workflow_calls (Workflow_Stages wf) = (calls (events (Run r w)) ++ post)%list
    /\ (val (Run r w) = None -> post = []).
Proof.
  intro Hl. destruct (Run_outcome r w wf Hl) as (rest & He & Ho).
  rewrite He.
  change (calls (EvWrite (RunStart (path r)) :: EvLoad (path r) (inl wf)
                   :: rest)) with (calls rest).
  destruct (val (Run r w)) as [err|].
  - destruct Ho as (a & stage & k & step & Ha). eexists.
    split; [exact (aborted_calls_prefix _ _ _ _ _ _ _ Ha)|discriminate].
  - destruct Ho as (_ & Hc & _). exists []. now rewrite app_nil_r.
Qed.

Lemma in_workflow_calls_exec (stages : list Stage) (argv : list string) :
  In (CallExec argv) (workflow_calls stages) ->
  exists stage step,
    In stage stages /\ In step (Stage_Steps stage) /\
    Step_Type step = StepTypeExec /\ Step_Run step = argv.
Proof.
  intro H. apply in_flat_map in H. destruct H as (stage & Hs & H).
  apply in_flat_map in H. destruct H as (step & Hst & H).
  exists stage, step. split; [exact Hs|]. split; [exact Hst|].
  unfold step_calls in H.
  destruct (Step_Type step =? StepTypeExec) eqn:Hx.
  - apply String.eqb_eq in Hx. destruct H as [[= <-]|[]]. auto.
  - destruct (Step_Type step =? StepTypeSleep); [|contradiction].
    destruct H as [H|[]]. discriminate H.
Qed.

Lemma validated_steps (wf : Workflow) (stage : Stage) (step : Step) :
  Workflow_Validate wf = None ->
  In stage (Workflow_Stages wf) -> In step (Stage_Steps stage) ->
  step_invariants step.
Proof.
  intros Hv Hs Hst. apply Workflow_Validate_ok in Hv.
  destruct Hv as (_ & _ & Hv). rewrite Forall_forall in Hv.
  destruct (Hv stage Hs) as (_ & _ & Hsteps).
  rewrite Forall_forall in Hsteps. exact (Hsteps step Hst).
Qed.

(** X6. When the loader returns a workflow that passes validation, the
    only way [Run] returns an error is a failed command: the run ends with
    that [RunCmd] call, the step is an exec step of the workflow, and the
    error is "stage '<stage>', step '<step>': command execution failed: "
    around the command's error. The "unknown step type" branch of
    [executeStep] is never taken. *)
Theorem validated_Run_fails_only_on_a_command
        (W : Type) (r : Runner W) (w : W) (wf : Workflow) (err : error) :
  Run_load r w = inl wf ->
  Workflow_Validate wf = None ->
  val (Run r w) = Some err ->
  exists pre e a stage k step,
    nth_error (Workflow_Stages wf) a = Some stage /\
    nth_error (Stage_Steps stage) k = Some step /\
    Step_Type step = StepTypeExec /\
    events (Run r w) = (pre ++ [EvRunCmd (Step_Run step) (Some e)])%list /\
    no_failure pre /\
    err = Errorf_w ("stage '" ++ Stage_Name stage ++ "', step '"
                      ++ Step_Name step ++ "': ")
                   (Errorf_w "command execution failed: " e).
Proof.
  intros Hl Hv Herr. destruct (Run_outcome r w wf Hl) as (rest & He & Ho).
  rewrite Herr in Ho.
  destruct Ho as (a & stage & k & step & Hn1 & Hn2 & e0 & p & last
                  & Hr & Hp & _ & Ha & ->).
  destruct Ha as [(Hx & e & -> & ->)|(Hu & _)].
  - exists (EvWrite (RunStart (path r)) :: EvLoad (path r) (inl wf) :: p),
      e, a, stage, k, step.
    repeat split; auto.
    + rewrite He, Hr. reflexivity.
    + repeat constructor. exact Hp.
  - exfalso. apply Hu.
    apply (validated_steps wf stage step Hv).
    + now apply nth_error_In with a.
    + now apply nth_error_In with k.
Qed.

Lemma validated_Run_fails_only_on_a_command_witness :
  exists pre e,
    events (Run runner_test.failing_runner runner_test.mock0) =
    (pre ++ [EvRunCmd ["go"; "build"] (Some e)])%list.
Proof.
  destruct (validated_Run_fails_only_on_a_command
              runner_test.Mock runner_test.failing_runner runner_test.mock0
              (mkWorkflow "mock-workflow" "" runner_test.two_commands)
              _ eq_refl eq_refl eq_refl)
    as (pre & e & a & stage & k & step & _ & _ & _ & He & _).
  exists pre, e. rewrite He.
  apply (f_equal (fun t => last t (EvSleep 0))) in He.
  rewrite last_last in He. cbn in He. injection He as <- _. reflexivity.
Defined.

(** X7. Every argv that [Run] passes to the command runner for a validated
    workflow is the run of one of its exec steps and is not empty, so that
    [runCommand], which takes the command from [argv[0]], returns on it
    instead of panicking. *)
Theorem validated_Run_passes_nonempty_argv
        (W : Type) (r : Runner W) (w : W) (wf : Workflow)
        (argv : list string) (res : option error) :
  Run_load r w = inl wf ->
  Workflow_Validate wf = None ->
  In (EvRunCmd argv res) (events (Run r w)) ->
  (exists stage step,
      In stage (Workflow_Stages wf) /\ In step (Stage_Steps stage) /\
      Step_Type step = StepTypeExec /\ Step_Run step = argv) /\
  argv <> [] /\
  forall (cmd_Run : string -> list string -> W -> option error * W) (w' : W),
    runner_new.runCommand cmd_Run argv w'
    = Some (cmd_Run (hd "" argv) (tl argv) w').
Proof.
  intros Hl Hv Hin.
  assert (Hc : In (CallExec argv) (calls (events (Run r w)))).
  { apply in_flat_map. exists (EvRunCmd argv res). split; [exact Hin|].
    now left. }
  destruct (Run_calls_prefix r w wf Hl) as (post & Hp & _).
  assert (Hw : In (CallExec argv) (workflow_calls (Workflow_Stages wf)))
    by (rewrite Hp; apply in_or_app; now left).
  destruct (in_workflow_calls_exec _ _ Hw) as (stage & step & Hs & Hst & Hx & Hr).
  assert (Hne : argv <> []).
  { destruct (validated_steps wf stage step Hv Hs Hst) as (_ & H & _).
    rewrite <- Hr. exact (H Hx). }
  split; [now exists stage, step|]. split; [exact Hne|].
  intros cmd_Run w'. destruct argv as [|name args]; [contradiction|].
  reflexivity.
Qed.

Lemma validated_Run_passes_nonempty_argv_witness :
  ["go"; "test"] <> [] /\
  forall (cmd_Run : string -> list string -> runner_test.Mock
                    -> option error * runner_test.Mock) w',
    runner_new.runCommand cmd_Run ["go"; "test"] w'
    = Some (cmd_Run "go" ["test"] w').
Proof.
  apply (validated_Run_passes_nonempty_argv
           runner_test.Mock runner_test.success_runner runner_test.mock0
           (mkWorkflow "mock-workflow" "" runner_test.build_test_stages)
           ["go"; "test"] None eq_refl eq_refl).
  vm_compute. repeat (first [left; reflexivity|right]).
Defined.

(** ** The dry run as a preview of the run *)

Lemma would_calls_of_steps (i : nat) (l : list (nat * Step)) :
  flat_map would_call (flat_map (dry_step_lines i) l)
  = flat_map step_calls (map snd l).
Proof.
  induction l as [|js l IH]; [reflexivity|].
  cbn [flat_map map]. rewrite flat_map_app, IH. f_equal.
  unfold dry_step_lines, step_would, step_calls. cbn [flat_map would_call app].
  destruct (Step_Type (snd js) =? StepTypeExec); [reflexivity|].
  now destruct (Step_Type (snd js) =? StepTypeSleep).
Qed.

Lemma map_snd_numbered_from {A} (l : list A) :
  forall k : nat, map snd (numbered_from k l) = l.
Proof.
  induction l as [|a l IH]; intro k; [reflexivity|].
  rewrite numbered_from_cons. cbn [map snd]. now rewrite IH.
Qed.

Lemma would_calls_of_stages (stages : list Stage) :
  forall k : nat,
    flat_map would_call (flat_map dry_stage_lines (numbered_from k stages))
    = workflow_calls stages.
Proof.
  induction stages as [|s rest IH]; intro k; [reflexivity|].
  rewrite numbered_from_cons. cbn [flat_map]. rewrite flat_map_app, IH.
  f_equal. unfold dry_stage_lines. cbn [fst snd flat_map would_call app].
  rewrite flat_map_app, would_calls_of_steps, map_snd_numbered_from.
  cbn. now rewrite app_nil_r.
Qed.

(** X8. What [DryRun] announces is what [Run] does: read as invocations,
    the "Would execute command" and "Would sleep" lines of a dry run are
    exactly the stage-major, step-minor invocations of the workflow; the
    invocations a [Run] of the same workflow makes are an initial segment
    of them, and all of them when [Run] returns no error. *)
Theorem DryRun_announces_the_invocations
        (W : Type) (r : Runner W) (w w' : W) (wf : Workflow) :
  DryRun_load r w = inl wf ->
  Run_load r w' = inl wf ->
  flat_map would_call (lines (events (DryRun r w)))
  = workflow_calls (Workflow_Stages wf) /\
  exists post,
    flat_map would_call (lines (events (DryRun r w)))
    = (calls (events (Run r w')) ++ post)%list /\
    (val (Run r w') = None -> post = []).
Proof.
  intros Hd Hr.
  assert (H : flat_map would_call (lines (events (DryRun r w)))
              = workflow_calls (Workflow_Stages wf)).
  { rewrite (DryRun_lines r w wf Hd). unfold dry_lines.
    cbn [flat_map would_call app]. rewrite flat_map_app, would_calls_of_stages.
    cbn. now rewrite app_nil_r. }
  split; [exact H|]. rewrite H. apply (Run_calls_prefix r w' wf Hr).
Qed.

Lemma DryRun_announces_the_invocations_witness :
  flat_map would_call
           (lines (events (DryRun runner_test.success_runner runner_test.mock0)))
  = calls (events (Run runner_test.success_runner runner_test.mock0)).
Proof.
  destruct (DryRun_announces_the_invocations
              runner_test.Mock runner_test.success_runner
              runner_test.mock0 runner_test.mock0
              (mkWorkflow "mock-workflow" "" runner_test.build_test_stages)
              eq_refl eq_refl) as (_ & post & Hp & Hnil).
  rewrite Hp, (Hnil eq_refl). apply app_nil_r.
Defined.

Lemma step_keys_of_steps (i : nat) (l : list (nat * Step)) :
  flat_map step_key (flat_map (run_step_lines i) l)
  = flat_map step_key (flat_map (dry_step_lines i) l).
Proof.
  induction l as [|js l IH]; [reflexivity|].
  cbn [flat_map]. rewrite !flat_map_app, IH. f_equal.
  unfold run_step_lines, dry_step_lines, step_notice, step_would.
  cbn [flat_map step_key app]. f_equal.
  destruct (Step_Type (snd js) =? StepTypeExec); [reflexivity|].
  now destruct (Step_Type (snd js) =? StepTypeSleep).
Qed.

Lemma step_keys_of_stages (l : list (nat * Stage)) :
  flat_map step_key (flat_map run_stage_lines l)
  = flat_map step_key (flat_map dry_stage_lines l).
Proof.
  induction l as [|ks l IH]; [reflexivity|].
  cbn [flat_map]. rewrite !flat_map_app, IH. f_equal.
  unfold run_stage_lines, dry_stage_lines. cbn [flat_map step_key app].
  rewrite !flat_map_app, step_keys_of_steps. reflexivity.
Qed.

(** X9. [Run] and [DryRun] number and name the steps alike: the step
    markers of a [Run] carry, in order, the same indices, names and types
    as the first step markers of a [DryRun] of the same workflow, and as
    all of them when [Run] returns no error. *)
Theorem Run_and_DryRun_mark_the_same_steps
        (W : Type) (r : Runner W) (w w' : W) (wf : Workflow) :
  DryRun_load r w = inl wf ->
  Run_load r w' = inl wf ->
  exists post,
    flat_map step_key (lines (events (DryRun r w)))
    = (flat_map step_key (lines (events (Run r w'))) ++ post)%list /\
    (val (Run r w') = None -> post = []).
Proof.
  intros Hd Hr. rewrite (DryRun_lines r w wf Hd).
  assert (Hk : flat_map step_key (dry_lines (path r) (Workflow_Stages wf))
               = flat_map step_key (run_lines (path r) (Workflow_Stages wf))).
  { unfold dry_lines, run_lines. cbn [flat_map step_key app].
    rewrite !flat_map_app, step_keys_of_stages. reflexivity. }
  rewrite Hk.
  destruct (val (Run r w')) as [err|] eqn:Hv.
  - destruct (Run_lines_prefix r w' wf Hr) as (post & Hp).
    exists (flat_map step_key post). rewrite Hp, flat_map_app.
    split; [reflexivity|discriminate].
  - destruct (Run_outcome r w' wf Hr) as (rest & _ & Ho).
    rewrite Hv in Ho. destruct Ho as (_ & _ & Hl & _).
    exists []. rewrite Hl, app_nil_r. auto.
Qed.

Lemma Run_and_DryRun_mark_the_same_steps_witness :
  flat_map step_key
           (lines (events (DryRun runner_test.success_runner runner_test.mock0)))
  = flat_map step_key
             (lines (events (Run runner_test.success_runner runner_test.mock0))).
Proof.
  destruct (Run_and_DryRun_mark_the_same_steps
              runner_test.Mock runner_test.success_runner
              runner_test.mock0 runner_test.mock0
              (mkWorkflow "mock-workflow" "" runner_test.build_test_stages)
              eq_refl eq_refl) as (post & Hp & Hnil).
  rewrite Hp, (Hnil eq_refl). apply app_nil_r.
Defined.

(** ** The order of writes and invocations *)

Section RunEvents.
Context {W : Type} (r : Runner W).

Lemma Run_steps_events_ok (i : nat) (stage : Stage) (steps : list Step) :
  forall (j : nat) (w : W),
    val (Run_steps r i stage j steps w) = None ->
    events (Run_steps r i stage j steps w)
    = flat_map (run_step_events (i + 1)) (numbered_from (j + 1) steps).
Proof.
  induction steps as [|s rest IH]; intros j w; [reflexivity|].
  rewrite Run_steps_cons. cbv zeta. rewrite numbered_from_cons.
  cbn [flat_map]. unfold run_step_events at 1. cbn [fst snd].
  destruct (step_type_cases s) as [Hx|[[Hx Hs]|Hu]].
  - rewrite (executeStep_exec r s _ Hx), Hx. cbn [val world events].
    destruct (fst (RunCmd r (Step_Run s) _)) as [e|]; cbn [val events];
      [discriminate|].
    intro H. rewrite (IH _ _ H). reflexivity.
  - rewrite (executeStep_sleep r s _ Hx Hs), Hx, Hs. cbn [val world events].
    intro H. rewrite (IH _ _ H). reflexivity.
  - assert (Hk : ~ known_type s) by now apply unknown_type_eqb.
    rewrite (executeStep_unknown r s _ Hk). cbn [val]. discriminate.
Qed.

Lemma Run_stages_events_ok (stages : list Stage) :
  forall (i : nat) (w : W),
    val (Run_stages r i stages w) = None ->
    events (Run_stages r i stages w)
    = flat_map run_stage_events (numbered_from (i + 1) stages).
Proof.
  induction stages as [|s rest IH]; intros i w; [reflexivity|].
  rewrite Run_stages_cons. cbv zeta. rewrite numbered_from_cons.
  cbn [flat_map]. unfold run_stage_events at 1. cbn [fst snd].
  pose proof (Run_steps_events_ok i s (Stage_Steps s) 0) as Hs.
  destruct (val (Run_steps r i s 0 (Stage_Steps s) _)) eqn:Hv;
    cbn [val events]; [discriminate|].
  intro H. rewrite (IH _ _ H), (Hs _ Hv). cbn [app].
  rewrite <- app_assoc. reflexivity.
Qed.

(** The place where an aborted loop stopped, in its lines. *)
Lemma Run_steps_abort_last (i : nat) (stage : Stage) (steps : list Step) :
  forall (j : nat) (w : W) (err : error),
    val (Run_steps r i stage j steps w) = Some err ->
    exists k step e0 pre,
      nth_error steps k = Some step /\
      lines (events (Run_steps r i stage j steps w))
      = (pre ++ [RunStep (i + 1) (j + k + 1)
                         (Step_Name step) (Step_Type step)])%list /\
      err = Errorf_w ("stage '" ++ Stage_Name stage ++ "', step '"
                        ++ Step_Name step ++ "': ") e0.
Proof.
  induction steps as [|s rest IH]; intros j w err; [discriminate|].
  rewrite Run_steps_cons. cbv zeta.
  set (mark := RunStep (i + 1) (j + 1) (Step_Name s) (Step_Type s)).
  destruct (executeStep_outcome r s (Out r (render mark) w)) as [_ Ho].
  set (r1 := executeStep r s (Out r (render mark) w)) in *.
  destruct (val r1) as [e0|]; cbn [val events].
  - intros [= <-]. exists 0, s, e0, [].
    split; [reflexivity|]. split; [|reflexivity].
    change (lines (EvWrite mark :: events r1))
      with (mark :: lines (events r1)).
    rewrite (step_abort_lines _ _ _ Ho), Nat.add_0_r. reflexivity.
  - intro H. destruct (IH _ _ _ H) as (k & step & e0 & pre & Hn & Hl & ->).
    exists (S k), step, e0, (mark :: lines (events r1) ++ pre)%list.
    split; [exact Hn|]. split; [|reflexivity].
    change (lines (EvWrite mark :: events r1
                     ++ events (Run_steps r i stage (S j) rest (world r1))))
      with (mark :: lines (events r1
                     ++ events (Run_steps r i stage (S j) rest (world r1)))).
    rewrite lines_app, Hl. cbn [app]. rewrite <- app_assoc.
    replace (S j + k + 1) with (j + S k + 1) by lia. reflexivity.
Qed.

Lemma Run_stages_abort_last (stages : list Stage) :
  forall (i : nat) (w : W) (err : error),
    val (Run_stages r i stages w) = Some err ->
    exists a stage k step e0 pre,
      nth_error stages a = Some stage /\
      nth_error (Stage_Steps stage) k = Some step /\
      lines (events (Run_stages r i stages w))
      = (pre ++ [RunStep (i + a + 1) (k + 1)
                         (Step_Name step) (Step_Type step)])%list /\
      err = Errorf_w ("stage '" ++ Stage_Name stage ++ "', step '"
                        ++ Step_Name step ++ "': ") e0.
Proof.
  induction stages as [|s rest IH]; intros i w err; [discriminate|].
  rewrite Run_stages_cons. cbv zeta.
  set (mark := RunStage (i + 1) (Stage_Name s)).
  set (done := RunStageCompleted (i + 1)).
  pose proof (Run_steps_abort_last i s (Stage_Steps s) 0
                                   (Out r (render mark) w)) as Hs.
  set (r1 := Run_steps r i s 0 (Stage_Steps s) (Out r (render mark) w)) in *.
  destruct (val r1) as [e|]; cbn [val events].
  - intros [= <-].
    destruct (Hs e eq_refl) as (k & step & e0 & pre & Hn & Hl & ->).
    exists 0, s, k, step, e0, (mark :: pre).
    split; [reflexivity|]. split; [exact Hn|]. split; [|reflexivity].
    change (lines (EvWrite mark :: events r1))
      with (mark :: lines (events r1)).
    rewrite Hl, Nat.add_0_r. reflexivity.
  - intro H.
    destruct (IH _ _ _ H) as (a & stage & k & step & e0 & pre
                              & Hn1 & Hn2 & Hl & ->).
    exists (S a), stage, k, step, e0,
      (mark :: lines (events r1) ++ done :: pre)%list.
    split; [exact Hn1|]. split; [exact Hn2|]. split; [|reflexivity].
    set (r2 := Run_stages r (S i) rest (Out r (render done) (world r1))) in *.
    change (lines (EvWrite mark :: events r1 ++ EvWrite done :: events r2))
      with (mark :: lines (events r1 ++ EvWrite done :: events r2)).
    rewrite lines_app.
    change (lines (EvWrite done :: events r2))
      with (done :: lines (events r2)).
    rewrite Hl. cbn [app]. rewrite <- app_assoc. cbn [app].
    replace (S i + a + 1) with (i + S a + 1) by lia. reflexivity.
Qed.

End RunEvents.

(** X10. In a [Run] that returns no error, writes and invocations
    alternate as declared: after the start marker and the call of the
    loader, each stage writes its start line, then for each step the step
    marker immediately followed by the step's invocation (the command of
    an exec step, which succeeds; for a sleep step the notice and then the
    delay), then the stage's completion line; the completion marker is the
    last event. *)
Theorem Run_events_of_successful_run
        (W : Type) (r : Runner W) (w : W) (wf : Workflow) :
  Run_load r w = inl wf ->
  val (Run r w) = None ->
  events (Run r w) = run_events (path r) wf.
Proof.
  intros Hl. rewrite Run_unfold. cbv zeta. rewrite Hl.
  pose proof (Run_stages_events_ok r (Workflow_Stages wf) 0) as Hs.
  destruct (val (Run_stages r 0 (Workflow_Stages wf) _)) eqn:Hv;
    cbn [val events]; [discriminate|].
  intros _. rewrite (Hs _ Hv). reflexivity.
Qed.

Lemma Run_events_of_successful_run_witness :
  events (Run runner_test.success_runner runner_test.mock0) =
  [EvWrite (RunStart "test-workflow.yaml");
   EvLoad "test-workflow.yaml"
          (inl (mkWorkflow "mock-workflow" "" runner_test.build_test_stages));
   EvWrite (RunStage 1 "build");
   EvWrite (RunStep 1 1 "compile" StepTypeExec);
   EvRunCmd ["go"; "build"] None;
   EvWrite (RunStep 1 2 "wait" StepTypeSleep);
   EvWrite (RunSleeping 2);
   EvSleep 2000000000;
   EvWrite (RunStageCompleted 1);
   EvWrite (RunStage 2 "test");
   EvWrite (RunStep 2 1 "run-tests" StepTypeExec);
   EvRunCmd ["go"; "test"] None;
   EvWrite (RunStageCompleted 2);
   EvWrite RunCompleted].
Proof.
  apply (Run_events_of_successful_run
           runner_test.Mock runner_test.success_runner runner_test.mock0
           (mkWorkflow "mock-workflow" "" runner_test.build_test_stages)
           eq_refl eq_refl).
Defined.

(** X11. When [Run] returns an error for a loaded workflow, the last line
    it has written is the marker "STEP i.j: <name> (<type>)" of the very
    step that the error names, with [i] and [j] the positions of its stage
    and of the step counted from one; the error is "stage '<stage>', step
    '<name>': " around the cause. *)
Theorem failed_Run_ends_at_the_marker_of_the_failing_step
        (W : Type) (r : Runner W) (w : W) (wf : Workflow) (err : error) :
  Run_load r w = inl wf ->
  val (Run r w) = Some err ->
  exists a stage k step e0 pre,
    nth_error (Workflow_Stages wf) a = Some stage /\
    nth_error (Stage_Steps stage) k = Some step /\
    lines (events (Run r w))
    = (pre ++ [RunStep (a + 1) (k + 1)
                       (Step_Name step) (Step_Type step)])%list /\
    err = Errorf_w ("stage '" ++ Stage_Name stage ++ "', step '"
                      ++ Step_Name step ++ "': ") e0.
Proof.
  intros Hl. rewrite Run_unfold. cbv zeta. rewrite Hl.
  pose proof (Run_stages_abort_last r (Workflow_Stages wf) 0) as Hs.
  destruct (val (Run_stages r 0 (Workflow_Stages wf) _)) as [e|] eqn:Hv;
    cbn [val events]; [|discriminate].
  intros [= <-].
  destruct (Hs _ _ Hv) as (a & stage & k & step & e0 & pre
                           & Hn1 & Hn2 & Hli & ->).
  exists a, stage, k, step, e0, (RunStart (path r) :: pre).
  split; [exact Hn1|]. split; [exact Hn2|]. split; [|reflexivity].
  match goal with
  | |- lines (?a :: ?b :: ?t) = _ =>
      change (lines (a :: b :: t)) with (RunStart (path r) :: lines t)
  end.
  rewrite Hli. reflexivity.
Qed.

Lemma failed_Run_ends_at_the_marker_of_the_failing_step_witness :
  exists pre,
    lines (events (Run runner_test.failing_runner runner_test.mock0))
    = (pre ++ [RunStep 1 1 "compile" StepTypeExec])%list.
Proof.
  destruct (failed_Run_ends_at_the_marker_of_the_failing_step
              runner_test.Mock runner_test.failing_runner runner_test.mock0
              (mkWorkflow "mock-workflow" "" runner_test.two_commands)
              _ eq_refl eq_refl)
    as (a & stage & k & step & e0 & pre & _ & _ & Hli & _).
  exists pre. rewrite Hli.
  apply (f_equal (fun t => last t RunCompleted)) in Hli.
  rewrite last_last in Hli. cbn in Hli. now rewrite <- Hli.
Defined.

Lemma stage_lines_not_completed (l : list (nat * Stage)) :
  ~ In RunCompleted (flat_map run_stage_lines l).
Proof.
  intro H. apply in_flat_map in H. destruct H as (ks & _ & H).
  unfold run_stage_lines in H. destruct H as [H|H]; [discriminate H|].
  apply in_app_or in H. destruct H as [H|[H|[]]]; [|discriminate H].
  apply in_flat_map in H. destruct H as (js & _ & H).
  unfold run_step_lines in H. destruct H as [H|H]; [discriminate H|].
  apply in_step_notice in H. destruct H as (z & H). discriminate H.
Qed.

(** X12. After a successful load, the completion marker
    "Workflow execution completed." is among the lines [Run] has written
    if and only if [Run] returns no error. *)
Theorem completion_marker_iff_no_error
        (W : Type) (r : Runner W) (w : W) (wf : Workflow) :
  Run_load r w = inl wf ->
  (In RunCompleted (lines (events (Run r w))) <-> val (Run r w) = None).
Proof.
  intro Hl. split.
  - pose proof (Run_unfold r w) as Hu. cbv zeta in Hu. rewrite Hl in Hu.
    destruct (Run_stages_lines_prefix r (Workflow_Stages wf) 0
                (snd (LoadWorkflow r (path r)
                        (Out r (render (RunStart (path r))) w))))
      as (post & Hp).
    destruct (val (Run_stages r 0 (Workflow_Stages wf) _)) as [e|];
      rewrite Hu; cbn [val events]; [|reflexivity].
    intro H. exfalso.
    match type of H with
    | In _ (lines (?a :: ?b :: ?t)) =>
        change (lines (a :: b :: t)) with (RunStart (path r) :: lines t) in H
    end.
    destruct H as [H|H]; [discriminate H|].
    apply (stage_lines_not_completed
             (numbered_from (0 + 1) (Workflow_Stages wf))).
    rewrite Hp. apply in_or_app. now left.
  - intro Hv. destruct (Run_outcome r w wf Hl) as (rest & _ & Ho).
    rewrite Hv in Ho. destruct Ho as (_ & _ & Hli & _). rewrite Hli.
    unfold run_lines. right. apply in_or_app. right. now left.
Qed.

Lemma completion_marker_iff_no_error_witness :
  In RunCompleted
     (lines (events (Run runner_test.success_runner runner_test.mock0))) /\
  ~ In RunCompleted
      (lines (events (Run runner_test.failing_runner runner_test.mock0))).
Proof.
  split.
  - apply (completion_marker_iff_no_error
             runner_test.Mock runner_test.success_runner runner_test.mock0
             (mkWorkflow "mock-workflow" "" runner_test.build_test_stages)
             eq_refl).
    reflexivity.
  - intro H.
    apply (completion_marker_iff_no_error
             runner_test.Mock runner_test.failing_runner runner_test.mock0
             (mkWorkflow "mock-workflow" "" runner_test.two_commands)
             eq_refl) in H.
    discriminate H.
Defined.

(** ** What reaches the sink *)

Lemma string_app_nil_r (s : string) : s ++ "" = s.
Proof. induction s as [|a s IH]; cbn; [reflexivity|now rewrite IH]. Qed.

Lemma concat_empty_cons (x : string) (l : list string) :
  String.concat "" (x :: l) = x ++ String.concat "" l.
Proof. destruct l; cbn; [now rewrite string_app_nil_r|reflexivity]. Qed.

Lemma concat_empty_app (l l' : list string) :
  String.concat "" (l ++ l') = String.concat "" l ++ String.concat "" l'.
Proof.
  induction l as [|x l IH]; [reflexivity|].
  cbn [app]. now rewrite !concat_empty_cons, IH, string_app_assoc.
Qed.

Lemma output_app (t t' : list Event) :
  output (t ++ t') = output t ++ output t'.
Proof. unfold output. now rewrite lines_app, map_app, concat_empty_app. Qed.

Lemma output_write (l : Line) (t : list Event) :
  output (EvWrite l :: t) = render l ++ output t.
Proof.
  unfold output. change (lines (EvWrite l :: t)) with (l :: lines t).
  cbn [map]. apply concat_empty_cons.
Qed.

Section Sink.
Context {W : Type} (r : Runner W) (buf : W -> string).
Hypothesis Out_appends : forall s w, buf (Out r s w) = buf w ++ s.
Hypothesis LoadWorkflow_keeps :
  forall p w, buf (snd (LoadWorkflow r p w)) = buf w.
Hypothesis RunCmd_keeps : forall argv w, buf (snd (RunCmd r argv w)) = buf w.
Hypothesis Sleep_keeps : forall d w, buf (Sleep r d w) = buf w.

Lemma executeStep_sink (s : Step) (w : W) :
  buf (world (executeStep r s w))
  = buf w ++ output (events (executeStep r s w)).
Proof.
  destruct (step_type_cases s) as [Hx|[[Hx Hs]|Hu]].
  - rewrite (executeStep_exec r s w Hx). cbn [world events].
    rewrite RunCmd_keeps. cbn. now rewrite string_app_nil_r.
  - rewrite (executeStep_sleep r s w Hx Hs). cbn [world events].
    rewrite Sleep_keeps, Out_appends, output_write.
    change (output [EvSleep (seconds_to_Duration (Step_Seconds s))]) with "".
    now rewrite string_app_nil_r.
  - assert (Hk : ~ known_type s) by now apply unknown_type_eqb.
    rewrite (executeStep_unknown r s w Hk). cbn.
    now rewrite string_app_nil_r.
Qed.

Lemma Run_steps_sink (i : nat) (stage : Stage) (steps : list Step) :
  forall (j : nat) (w : W),
    buf (world (Run_steps r i stage j steps w))
    = buf w ++ output (events (Run_steps r i stage j steps w)).
Proof.
  induction steps as [|s rest IH]; intros j w.
  - cbn. now rewrite string_app_nil_r.
  - rewrite Run_steps_cons. cbv zeta.
    set (mark := RunStep (i + 1) (j + 1) (Step_Name s) (Step_Type s)).
    pose proof (executeStep_sink s (Out r (render mark) w)) as H1.
    set (r1 := executeStep r s (Out r (render mark) w)) in *.
    rewrite Out_appends in H1.
    destruct (val r1); cbn [world events]; rewrite output_write.
    + now rewrite H1, string_app_assoc.
    + now rewrite IH, H1, output_app, !string_app_assoc.
Qed.

Lemma Run_stages_sink (stages : list Stage) :
  forall (i : nat) (w : W),
    buf (world (Run_stages r i stages w))
    = buf w ++ output (events (Run_stages r i stages w)).
Proof.
  induction stages as [|s rest IH]; intros i w.
  - cbn. now rewrite string_app_nil_r.
  - rewrite Run_stages_cons. cbv zeta.
    set (mark := RunStage (i + 1) (Stage_Name s)).
    set (done := RunStageCompleted (i + 1)).
    pose proof (Run_steps_sink i s (Stage_Steps s) 0
                               (Out r (render mark) w)) as H1.
    set (r1 := Run_steps r i s 0 (Stage_Steps s) (Out r (render mark) w)) in *.
    rewrite Out_appends in H1.
    destruct (val r1); cbn [world events]; rewrite output_write.
    + now rewrite H1, string_app_assoc.
    + rewrite IH, Out_appends, H1, output_app, output_write.
      now rewrite !string_app_assoc.
Qed.

Lemma DryRun_steps_sink (i : nat) (steps : list Step) :
  forall (j : nat) (w : W),
    buf (world (DryRun_steps r i j steps w))
    = buf w ++ output (events (DryRun_steps r i j steps w)).
Proof.
  induction steps as [|s rest IH]; intros j w.
  - cbn. now rewrite string_app_nil_r.
  - cbn [DryRun_steps]. unfold bind, Fprintf, DryRun_step.
    cbn [val world events app].
    destruct (Step_Type s =? StepTypeExec);
      [|destruct (Step_Type s =? StepTypeSleep)];
      unfold Fprintf; cbn [ret val world events app];
      rewrite IH, ?Out_appends, !output_write, ?string_app_assoc;
      reflexivity.
Qed.

Lemma DryRun_stages_sink (stages : list Stage) :
  forall (i : nat) (w : W),
    buf (world (DryRun_stages r i stages w))
    = buf w ++ output (events (DryRun_stages r i stages w)).
Proof.
  induction stages as [|s rest IH]; intros i w.
  - cbn. now rewrite string_app_nil_r.
  - cbn [DryRun_stages]. unfold bind, Fprintf.
    cbn [val world events app].
    rewrite IH, Out_appends, DryRun_steps_sink, Out_appends.
    rewrite output_write, output_app, output_write.
    now rewrite !string_app_assoc.
Qed.

End Sink.

(** X13. If the writer of a runner appends to a buffer that its loader,
    its command runner and its delay leave alone, then after [Run], and
    after [DryRun], the buffer holds what it held before followed by the
    rendered lines of the run, in the order they were written. *)
Theorem sink_holds_the_output
        (W : Type) (r : Runner W) (buf : W -> string) (w : W) :
  (forall s w, buf (Out r s w) = buf w ++ s) ->
  (forall p w, buf (snd (LoadWorkflow r p w)) = buf w) ->
  (forall argv w, buf (snd (RunCmd r argv w)) = buf w) ->
  (forall d w, buf (Sleep r d w) = buf w) ->
  buf (world (Run r w)) = buf w ++ output (events (Run r w)) /\
  buf (world (DryRun r w)) = buf w ++ output (events (DryRun r w)).
Proof.
  intros Ho Hl Hc Hs. split.
  - rewrite Run_unfold. cbv zeta.
    destruct (Run_load r w) as [wf|err]; cbn [world events].
    + pose proof (Run_stages_sink r buf Ho Hc Hs (Workflow_Stages wf) 0
                    (snd (LoadWorkflow r (path r)
                            (Out r (render (RunStart (path r))) w)))) as H1.
      rewrite Hl, Ho in H1.
      destruct (val (Run_stages r 0 (Workflow_Stages wf) _));
        cbn [world events].
      * rewrite output_write.
        match goal with
        | |- context [output (EvLoad ?p ?x :: ?t)] =>
            change (output (EvLoad p x :: t)) with (output t)
        end.
        now rewrite H1, string_app_assoc.
      * rewrite Ho, output_write.
        match goal with
        | |- context [output (EvLoad ?p ?x :: ?t)] =>
            change (output (EvLoad p x :: t)) with (output t)
        end.
        rewrite H1, output_app, output_write.
        change (output []) with "". now rewrite !string_app_assoc.
    + rewrite Hl, Ho, output_write.
      change (output [EvLoad (path r) (inr err)]) with "".
      now rewrite string_app_nil_r.
  - unfold DryRun, bind, Fprintf, callLoadWorkflow.
    cbn [val world events app].
    destruct (fst (LoadWorkflow r (path r)
                                (Out r (render (DryStart (path r))) w)))
      as [wf|err]; cbn [ret val world events app].
    + unfold bind, Fprintf. cbn [val world events app].
      rewrite Ho, (DryRun_stages_sink r buf Ho), Hl, Ho, output_write.
      match goal with
      | |- context [output (EvLoad ?p ?x :: ?t)] =>
          change (output (EvLoad p x :: t)) with (output t)
      end.
      rewrite output_app, output_write. change (output []) with "".
      now rewrite !string_app_assoc.
    + rewrite Hl, Ho, output_write.
      change (output [EvLoad (path r) (inr err)]) with "".
      now rewrite string_app_nil_r.
Qed.

Lemma sink_holds_the_output_witness :
  runner_test.out (world (Run runner_test.success_runner runner_test.mock0))
  = output (events (Run runner_test.success_runner runner_test.mock0)).
Proof.
  apply (sink_holds_the_output
           runner_test.Mock runner_test.success_runner runner_test.out
           runner_test.mock0); intros; reflexivity.
Defined.

(** ** The commands of package cmd *)

Import runner_new cmd.

Lemma Check_passes {W} (os_Stat : string -> W -> option StatError)
      (p : string) (w : W) :
  CheckFilePathExistAndIsNotEmpty os_Stat p w = None <->
  p <> "" /\ os_Stat p w <> Some ErrNotExist.
Proof.
  unfold CheckFilePathExistAndIsNotEmpty.
  destruct (p =? "") eqn:Ep.
  - apply String.eqb_eq in Ep. split; [discriminate|]. intros [H _]. easy.
  - apply String.eqb_neq in Ep.
    destruct (os_Stat p w) as [[|]|]; cbn; split; try discriminate; auto.
    + intros [_ H]. now contradiction H.
    + intros _. split; [exact Ep|discriminate].
    + intros _. split; [exact Ep|discriminate].
Qed.

Lemma Check_fails {W} (os_Stat : string -> W -> option StatError)
      (p : string) (w : W) (err : error) :
  CheckFilePathExistAndIsNotEmpty os_Stat p w = Some err ->
  err = workflowEmptyPathErr \/ err = workflowNotFoundErr.
Proof.
  unfold CheckFilePathExistAndIsNotEmpty.
  destruct (p =? ""); [intros [= <-]; auto|].
  destruct (os_IsNotExist (os_Stat p w)); [|discriminate].
  intros [= <-]. auto.
Qed.

Lemma runRun_val {W} (os_Stat : string -> W -> option StatError)
      (workflow : string) (out : option (string -> W -> W))
      (newRunner : string -> list (Option W) -> W -> (Runner W + error) * W)
      (w : W) :
  val (runRun os_Stat workflow out newRunner w) =
  match CheckFilePathExistAndIsNotEmpty os_Stat workflow w with
  | Some err => Some err
  | None =>
      match fst (newRunner workflow [WithOut out] w) with
      | inr _ => Some runnerCreationErr
      | inl rn =>
          match val (Run rn (snd (newRunner workflow [WithOut out] w))) with
          | Some _ => Some workflowExecutionErr
          | None => None
          end
      end
  end.
Proof.
  unfold runRun.
  destruct (CheckFilePathExistAndIsNotEmpty os_Stat workflow w);
    [reflexivity|].
  now destruct (fst (newRunner workflow [WithOut out] w)).
Qed.

Lemma runDryRun_val {W} (os_Stat : string -> W -> option StatError)
      (workflow : string) (out : option (string -> W -> W))
      (newRunner : string -> list (Option W) -> W -> (Runner W + error) * W)
      (w : W) :
  val (runDryRun os_Stat workflow out newRunner w) =
  match CheckFilePathExistAndIsNotEmpty os_Stat workflow w with
  | Some err => Some err
  | None =>
      match fst (newRunner workflow [WithOut out] w) with
      | inr _ => Some runnerCreationErr
      | inl rn =>
          match val (DryRun rn (snd (newRunner workflow [WithOut out] w))) with
          | Some _ => Some workflowExecutionErr
          | None => None
          end
      end
  end.
Proof.
  unfold runDryRun.
  destruct (CheckFilePathExistAndIsNotEmpty os_Stat workflow w);
    [reflexivity|].
  now destruct (fst (newRunner workflow [WithOut out] w)).
Qed.

(** X14. [runRun] and [runDryRun] return nil or one of four fixed errors
    ("workflow path cannot be empty", "workflow file not found", "failed
    to create runner", "workflow execution failed"), none of which wraps
    another error: the error of the runner, with the stage and the step of
    a failed command, is not passed on to the caller. *)
Theorem commands_return_fixed_errors
        (W : Type) (os_Stat : string -> W -> option StatError)
        (workflow : string) (out : option (string -> W -> W))
        (newRunner : string -> list (Option W) -> W -> (Runner W + error) * W)
        (w : W) (e : error) :
  val (runRun os_Stat workflow out newRunner w) = Some e \/
  val (runDryRun os_Stat workflow out newRunner w) = Some e ->
  In e [workflowEmptyPathErr; workflowNotFoundErr;
        runnerCreationErr; workflowExecutionErr] /\
  Unwrap e = None.
Proof.
  intro H.
  assert (Hin : In e [workflowEmptyPathErr; workflowNotFoundErr;
                      runnerCreationErr; workflowExecutionErr]).
  { rewrite runRun_val, runDryRun_val in H.
    destruct (CheckFilePathExistAndIsNotEmpty os_Stat workflow w)
      as [err|] eqn:Ec.
    - assert (He : err = e) by (destruct H as [H|H]; now injection H).
      subst err. destruct (Check_fails _ _ _ _ Ec) as [-> | ->]; cbn; auto.
    - destruct (fst (newRunner workflow [WithOut out] w)) as [rn|err].
      + destruct (val (Run rn _)), (val (DryRun rn _));
          destruct H as [H|H]; try discriminate H;
          injection H as <-; cbn; auto 6.
      + destruct H as [H|H]; injection H as <-; cbn; auto 6. }
  split; [exact Hin|].
  destruct Hin as [<-|[<-|[<-|[<-|[]]]]]; reflexivity.
Qed.

Lemma commands_return_fixed_errors_witness :
  Unwrap workflowExecutionErr = None.
Proof.
  apply (commands_return_fixed_errors
           runner_test.Mock cmd_test.stat_one_file "workflow.yml"
           (Some runner_test.bufferOut)
           (fun _ _ m => (inl runner_test.failing_runner, m))
           runner_test.mock0 workflowExecutionErr).
  left. reflexivity.
Defined.

(** X15. Both commands check the path before anything else: when the path
    is empty, or [os.Stat] reports that the file does not exist, [runRun]
    and [runDryRun] return the same error ("workflow path cannot be
    empty", else "workflow file not found"), the runner is not created,
    nothing is written and the world is left as it was. *)
Theorem commands_check_the_path_first
        (W : Type) (os_Stat : string -> W -> option StatError)
        (workflow : string) (out : option (string -> W -> W))
        (newRunner newRunner'
         : string -> list (Option W) -> W -> (Runner W + error) * W)
        (w : W) :
  workflow = "" \/ os_Stat workflow w = Some ErrNotExist ->
  runRun os_Stat workflow out newRunner w =
    mkRes (Some (if workflow =? "" then workflowEmptyPathErr
                 else workflowNotFoundErr)) w [] /\
  runDryRun os_Stat workflow out newRunner' w =
    runRun os_Stat workflow out newRunner w.
Proof.
  intro H. unfold runRun, runDryRun, CheckFilePathExistAndIsNotEmpty.
  destruct (workflow =? "") eqn:Ep; [split; reflexivity|].
  destruct H as [-> | ->]; [discriminate Ep|]. split; reflexivity.
Qed.

Lemma commands_check_the_path_first_witness :
  runRun cmd_test.stat_one_file "/non/existent/workflow.yml"
         (Some runner_test.bufferOut)
         (real_NewRunner cmd_test.mock_defaults) runner_test.mock0 =
  mkRes (Some workflowNotFoundErr) runner_test.mock0 [].
Proof.
  apply (commands_check_the_path_first
           runner_test.Mock cmd_test.stat_one_file
           "/non/existent/workflow.yml"
           (Some runner_test.bufferOut)
           (real_NewRunner cmd_test.mock_defaults)
           (real_NewRunner cmd_test.mock_defaults) runner_test.mock0).
  right. reflexivity.
Defined.

(** X16. With [runner.NewRunner] as the constructor, once the path check
    has passed (which it does also when [os.Stat] fails for a reason other
    than a missing file), [runRun] runs the runner made of the default
    loader, command runner and delay and of the given writer, on the given
    path, and replaces any error of the run by "workflow execution
    failed"; it returns "failed to create runner" exactly when the writer
    is nil, and then nothing is run. *)
Theorem runRun_with_NewRunner
        (W : Type) (os_Stat : string -> W -> option StatError)
        (d : Defaults W) (workflow : string)
        (out : option (string -> W -> W)) (w : W) :
  workflow <> "" ->
  os_Stat workflow w <> Some ErrNotExist ->
  runRun os_Stat workflow out (real_NewRunner d) w =
  match out with
  | None => mkRes (Some runnerCreationErr) w []
  | Some o =>
      let res := Run (mkRunner workflow (LoadWorkflowFromFile d)
                               (default_RunCmd d) (time_Sleep d) o) w in
      mkRes (match val res with
             | Some _ => Some workflowExecutionErr
             | None => None
             end) (world res) (events res)
  end.
Proof.
  intros Hp Hs. unfold runRun.
  rewrite (proj2 (Check_passes os_Stat workflow w) (conj Hp Hs)).
  now destruct out.
Qed.

Lemma runRun_with_NewRunner_witness :
  val (runRun cmd_test.stat_one_file "locked.yml"
              (Some runner_test.bufferOut)
              (real_NewRunner cmd_test.mock_defaults) runner_test.mock0)
  = None /\
  val (runRun cmd_test.stat_one_file "workflow.yml" None
              (real_NewRunner cmd_test.mock_defaults) runner_test.mock0)
  = Some runnerCreationErr.
Proof.
  split.
  - rewrite (runRun_with_NewRunner
               runner_test.Mock cmd_test.stat_one_file
               cmd_test.mock_defaults "locked.yml"
               (Some runner_test.bufferOut) runner_test.mock0).
    + reflexivity.
    + discriminate.
    + discriminate.
  - rewrite (runRun_with_NewRunner
               runner_test.Mock cmd_test.stat_one_file
               cmd_test.mock_defaults "workflow.yml"
               None runner_test.mock0).
    + reflexivity.
    + discriminate.
    + discriminate.
Defined.

(** X17. [runDryRun] never invokes the command runner or the delay,
    whatever constructor it is given. With [runner.NewRunner], a writer
    and a path that passes the check, it fails exactly when the default
    loader fails on the path, and then with "workflow execution failed". *)
Theorem runDryRun_only_loads_and_writes
        (W : Type) (os_Stat : string -> W -> option StatError)
        (d : Defaults W) (workflow : string)
        (out : option (string -> W -> W)) (o : string -> W -> W)
        (newRunner : string -> list (Option W) -> W -> (Runner W + error) * W)
        (w : W) :
  calls (events (runDryRun os_Stat workflow out newRunner w)) = [] /\
  (workflow <> "" -> os_Stat workflow w <> Some ErrNotExist ->
   val (runDryRun os_Stat workflow (Some o) (real_NewRunner d) w) =
   match fst (LoadWorkflowFromFile d workflow
                (o (render (DryStart workflow)) w)) with
   | inr _ => Some workflowExecutionErr
   | inl _ => None
   end).
Proof.
  split.
  - unfold runDryRun.
    destruct (CheckFilePathExistAndIsNotEmpty os_Stat workflow w);
      [reflexivity|].
    destruct (fst (newRunner workflow [WithOut out] w)) as [rn|err];
      [|reflexivity].
    cbn [events]. rewrite DryRun_events. cbn.
    destruct (DryRun_load rn _); [apply calls_writes|reflexivity].
  - intros Hp Hs. rewrite runDryRun_val.
    rewrite (proj2 (Check_passes os_Stat workflow w) (conj Hp Hs)).
    cbn [real_NewRunner NewRunner fold_left WithOut f_path f_LoadWorkflow
         f_RunCmd f_Sleep f_Out fst snd].
    rewrite DryRun_val. unfold DryRun_load. cbn [path LoadWorkflow Out].
    now destruct (fst (LoadWorkflowFromFile d workflow _)).
Qed.

Lemma runDryRun_only_loads_and_writes_witness :
  val (runDryRun cmd_test.stat_one_file "workflow.yml"
                 (Some runner_test.bufferOut)
                 (real_NewRunner cmd_test.mock_defaults) runner_test.mock0)
  = None.
Proof.
  rewrite (proj2 (runDryRun_only_loads_and_writes
                    runner_test.Mock cmd_test.stat_one_file
                    cmd_test.mock_defaults "workflow.yml" None
                    runner_test.bufferOut
                    (real_NewRunner cmd_test.mock_defaults)
                    runner_test.mock0)).
  - reflexivity.
  - discriminate.
  - discriminate.
Defined.

(** X18. [runWriteTemplate] never writes over a file that [os.Stat] finds:
    with the target being the given name, or "workflow.yaml" for the empty
    name, it returns "file already exists" exactly when [os.Stat] succeeds
    on the target, and then leaves the world untouched; otherwise the
    world is what [dsl.WriteTemplate] leaves for the target, and the
    result is nil exactly when that call succeeds. The init command
    without an argument behaves as with the argument "workflow.yaml". *)
Theorem runWriteTemplate_outcomes
        (W : Type) (os_Stat : string -> W -> option StatError)
        (WriteTemplate : string -> W -> option error * W)
        (fileName : string) (w : W) :
  let target := if fileName =? "" then defaultFileName else fileName in
  let res := runWriteTemplate os_Stat WriteTemplate fileName w in
  (fst res = Some errFileExists <-> os_Stat target w = None) /\
  (os_Stat target w = None -> snd res = w) /\
  (os_Stat target w <> None -> snd res = snd (WriteTemplate target w)) /\
  (fst res = None <->
   os_Stat target w <> None /\ fst (WriteTemplate target w) = None) /\
  initCmd_RunE os_Stat WriteTemplate [] w
  = initCmd_RunE os_Stat WriteTemplate [defaultFileName] w.
Proof.
  cbv zeta. unfold runWriteTemplate.
  set (target := if fileName =? "" then defaultFileName else fileName).
  destruct (os_Stat target w) as [se|] eqn:Es.
  - destruct (fst (WriteTemplate target w)) as [e|] eqn:Ew; cbn [fst snd];
      repeat split; try discriminate; try reflexivity; auto.
    + intros [_ H]. discriminate H.
  - cbn [fst snd]. repeat split; try discriminate; try reflexivity; auto.
    + intros H. now contradiction H.
    + intros [H _]. now contradiction H.
Qed.

Lemma runWriteTemplate_outcomes_witness :
  fst (runWriteTemplate cmd_test.stat_one_file cmd_test.write_ok
                        "workflow.yml" runner_test.mock0)
  = Some errFileExists /\
  fst (runWriteTemplate cmd_test.stat_one_file cmd_test.write_ok
                        "" runner_test.mock0)
  = None.
Proof.
  split.
  - apply (proj1 (runWriteTemplate_outcomes
                    runner_test.Mock cmd_test.stat_one_file cmd_test.write_ok
                    "workflow.yml" runner_test.mock0)).
    reflexivity.
  - apply (proj1 (proj2 (proj2 (proj2
             (runWriteTemplate_outcomes
                runner_test.Mock cmd_test.stat_one_file cmd_test.write_ok
                "" runner_test.mock0))))).
    split; [discriminate|reflexivity].
Defined.

Lemma NewRunner_last_setting_wins_witness :
  NewRunner cmd_test.mock_defaults "test.yaml"
            (map option_of [SetOut (Some runner_test.bufferOut); SetOut None])
  = inr (Errorf "runner not properly configured") /\
  NewRunner cmd_test.mock_defaults "test.yaml"
            (map option_of
                 [SetRunCmd None;
                  SetRunCmd (Some (runner_test.mockRunCmdError
                                     (errors_New "command failed")));
                  SetLoadWorkflow
                    (Some (runner_test.mockLoadWorkflow
                             runner_test.two_commands))])
  = inl runner_test.failing_runner.
Proof.
  split; rewrite NewRunner_last_setting_wins; reflexivity.
Defined.

(** ** The lines of a dry run, step by step *)

Lemma count_dry_step_lines (i : nat) (l : list (nat * Step)) :
  length (filter is_dry_step_line (flat_map (dry_step_lines i) l))
  = length l + length (filter has_known_type (map snd l)).
Proof.
  induction l as [|js l IH]; [reflexivity|].
  cbn [flat_map map filter length]. rewrite filter_app, length_app, IH.
  unfold dry_step_lines, step_would, has_known_type.
  destruct (Step_Type (snd js) =? StepTypeExec);
    [|destruct (Step_Type (snd js) =? StepTypeSleep)]; cbn; lia.
Qed.

Lemma count_dry_step_lines_stages (stages : list Stage) :
  forall k : nat,
    length (filter is_dry_step_line
                   (flat_map dry_stage_lines (numbered_from k stages)))
    = length (flat_map Stage_Steps stages)
      + length (filter has_known_type (flat_map Stage_Steps stages)).
Proof.
  induction stages as [|s rest IH]; intro k; [reflexivity|].
  rewrite numbered_from_cons. cbn [flat_map].
  rewrite filter_app, !length_app, IH, filter_app, length_app.
  unfold dry_stage_lines. cbn [fst snd filter is_dry_step_line].
  rewrite filter_app, length_app, count_dry_step_lines.
  rewrite length_numbered_from, map_snd_numbered_from. cbn. lia.
Qed.

(** C4, as worded, does not hold: for the three steps of the two-stage
    workflow [DryRun] writes six lines, a marker and a "Would" line for
    each. *)
Lemma DryRun_one_line_per_step_fails : ~ DryRun_one_line_per_step.
Proof.
  intro H.
  destruct (H runner_test.Mock runner_test.success_runner runner_test.mock0)
    as (_ & _ & Hn).
  specialize (Hn (mkWorkflow "mock-workflow" "" runner_test.build_test_stages)
                 eq_refl).
  vm_compute in Hn. discriminate Hn.
Qed.

(** C4, amended. [DryRun] never invokes the CommandRunner or the DelayFn:
    none of its events is an invocation, and its result, world and events
    are the same whatever these two capabilities are. It returns an error
    exactly when the loader does, and then the loader's error. When the
    loader succeeds it writes for each step, in declared order, one step
    marker line, followed for an exec or a sleep step by one line that
    says what would run or for how long it would sleep: two lines for
    each exec and sleep step, one for a step of any other type. *)
Theorem DryRun_invokes_nothing (W : Type) (r : Runner W) (w : W) :
  calls (events (DryRun r w)) = [] /\
  (forall rc sl,
      DryRun (mkRunner (path r) (LoadWorkflow r) rc sl (Out r)) w
      = DryRun r w) /\
  val (DryRun r w) =
    match DryRun_load r w with inr err => Some err | inl _ => None end /\
  (forall wf,
      DryRun_load r w = inl wf ->
      lines (events (DryRun r w)) = dry_lines (path r) (Workflow_Stages wf) /\
      filter is_dry_step (lines (events (DryRun r w))) =
        flat_map dry_stage_step_markers
                 (numbered_from 1 (Workflow_Stages wf)) /\
      length (filter is_dry_step (lines (events (DryRun r w)))) =
        length (flat_map Stage_Steps (Workflow_Stages wf)) /\
      length (filter is_dry_step_line (lines (events (DryRun r w)))) =
        length (flat_map Stage_Steps (Workflow_Stages wf))
        + length (filter has_known_type
                         (flat_map Stage_Steps (Workflow_Stages wf)))).
Proof.
  split; [|split; [|split]].
  - rewrite DryRun_events. cbn. destruct (DryRun_load r w); [|reflexivity].
    apply calls_writes.
  - intros rc sl. now apply DryRun_same.
  - apply DryRun_val.
  - intros wf Hl.
    assert (Hlines : lines (events (DryRun r w))
                     = dry_lines (path r) (Workflow_Stages wf)).
    { now apply DryRun_lines. }
    assert (Hmarks : filter is_dry_step (lines (events (DryRun r w))) =
                     flat_map dry_stage_step_markers
                              (numbered_from 1 (Workflow_Stages wf))).
    { rewrite Hlines. unfold dry_lines. cbn [filter is_dry_step].
      rewrite filter_app. cbn [filter is_dry_step]. rewrite app_nil_r.
      rewrite filter_flat_map. apply flat_map_ext.
      intro ks. apply dry_step_markers_of_stage. }
    split; [exact Hlines|]. split; [exact Hmarks|].
    split; [rewrite Hmarks; apply count_dry_step_markers|].
    rewrite Hlines. unfold dry_lines. cbn [filter is_dry_step_line].
    rewrite filter_app, length_app, count_dry_step_lines_stages. cbn. lia.
Qed.

Lemma DryRun_invokes_nothing_witness :
  filter is_dry_step_line
         (lines (events (DryRun runner_test.success_runner runner_test.mock0)))
  = [DryStep 1 1 "compile" StepTypeExec; DryWouldExec ["go"; "build"];
     DryStep 1 2 "wait" StepTypeSleep; DryWouldSleep 2;
     DryStep 2 1 "run-tests" StepTypeExec; DryWouldExec ["go"; "test"]].
Proof.
  destruct (DryRun_invokes_nothing
              runner_test.Mock runner_test.success_runner runner_test.mock0)
    as (_ & _ & _ & H).
  destruct (H (mkWorkflow "mock-workflow" "" runner_test.build_test_stages)
              eq_refl) as (Hl & _).
  rewrite Hl. reflexivity.
Defined.

(** ** The duration a sleep step is given *)

(** X4. For a sleep step that [Step.Validate] accepts and that asks for no
    more than 9223372036 seconds, [executeStep] writes the notice, calls
    the delay with exactly the seconds times 10^9 nanoseconds, a positive
    duration, and returns no error. One second more, which validation
    accepts as well, and the duration it passes to the delay is the
    wrapped 64-bit product, a negative number. *)
Theorem validated_sleep_duration
        (W : Type) (r : Runner W) (s : Step) (w : W) :
  Step_Type s = StepTypeSleep ->
  Step_Validate s = None ->
  (Step_Seconds s <= max_seconds)%Z ->
  executeStep r s w =
    mkRes None
          (Sleep r (Step_Seconds s * 1000000000)%Z
                 (Out r (render (RunSleeping (Step_Seconds s))) w))
          [EvWrite (RunSleeping (Step_Seconds s));
           EvSleep (Step_Seconds s * 1000000000)%Z] /\
  (0 < Step_Seconds s * 1000000000)%Z /\
  (forall name run,
      name <> "" ->
      Step_Validate (mkStep name StepTypeSleep run (max_seconds + 1)) = None /\
      events (executeStep r (mkStep name StepTypeSleep run (max_seconds + 1)) w)
      = [EvWrite (RunSleeping (max_seconds + 1));
         EvSleep (-9223372036709551616)%Z]).
Proof.
  intros Ht Hv Hmax. apply Step_Validate_ok in Hv.
  destruct Hv as (_ & _ & Hpos & _). specialize (Hpos Ht).
  unfold max_seconds in *.
  assert (Hd : seconds_to_Duration (Step_Seconds s)
               = (Step_Seconds s * 1000000000)%Z).
  { unfold seconds_to_Duration, time_Second.
    rewrite (wrap64_small (Step_Seconds s)) by lia.
    apply wrap64_small. lia. }
  split; [|split].
  - rewrite executeStep_sleep; [now rewrite Hd| |]; now rewrite Ht.
  - lia.
  - intros name run Hn. split.
    + unfold Step_Validate. cbn [Step_Name Step_Type Step_Seconds].
      apply String.eqb_neq in Hn. now rewrite Hn.
    + now rewrite executeStep_sleep.
Qed.

Lemma validated_sleep_duration_witness :
  events (executeStep runner_test.success_runner dsl_test.valid_sleep_step
                      runner_test.mock0)
  = [EvWrite (RunSleeping 5); EvSleep 5000000000].
Proof.
  destruct (validated_sleep_duration
              runner_test.Mock runner_test.success_runner
              dsl_test.valid_sleep_step runner_test.mock0
              eq_refl eq_refl) as (He & _).
  - discriminate.
  - now rewrite He.
Defined.

(** ** Positions in errors and in markers *)

Lemma dry_step_markers_from (i : nat) (steps : list Step) :
  forall k : nat,
    filter is_position_marker
           (flat_map (dry_step_lines i) (numbered_from (k + 1) steps))
    = map (fun js => DryStep i (fst js + 1)
                             (Step_Name (snd js)) (Step_Type (snd js)))
          (numbered_from k steps).
Proof.
  induction steps as [|s rest IH]; intro k; [reflexivity|].
  rewrite !numbered_from_cons. cbn [flat_map map fst snd].
  change (S (k + 1)) with (S k + 1). rewrite filter_app, IH.
  unfold dry_step_lines, step_would. cbn [fst snd filter is_position_marker].
  destruct (Step_Type s =? StepTypeExec); [reflexivity|].
  now destruct (Step_Type s =? StepTypeSleep).
Qed.

Lemma run_step_markers_from (i : nat) (steps : list Step) :
  forall k : nat,
    filter is_position_marker
           (flat_map (run_step_lines i) (numbered_from (k + 1) steps))
    = map (fun js => RunStep i (fst js + 1)
                             (Step_Name (snd js)) (Step_Type (snd js)))
          (numbered_from k steps).
Proof.
  induction steps as [|s rest IH]; intro k; [reflexivity|].
  rewrite !numbered_from_cons. cbn [flat_map map fst snd].
  change (S (k + 1)) with (S k + 1). rewrite filter_app, IH.
  unfold run_step_lines, step_notice. cbn [fst snd filter is_position_marker].
  destruct (Step_Type s =? StepTypeExec); [reflexivity|].
  now destruct (Step_Type s =? StepTypeSleep).
Qed.

Lemma dry_markers_from (stages : list Stage) :
  forall k : nat,
    filter is_position_marker
           (flat_map dry_stage_lines (numbered_from (k + 1) stages))
    = flat_map
        (fun ks =>
           DryStage (fst ks + 1) (Stage_Name (snd ks))
           :: map (fun js => DryStep (fst ks + 1) (fst js + 1)
                                     (Step_Name (snd js)) (Step_Type (snd js)))
                  (numbered_from 0 (Stage_Steps (snd ks))))
        (numbered_from k stages).
Proof.
  induction stages as [|s rest IH]; intro k; [reflexivity|].
  rewrite !numbered_from_cons. cbn [flat_map fst snd].
  change (S (k + 1)) with (S k + 1). rewrite filter_app, IH.
  unfold dry_stage_lines. cbn [fst snd filter is_position_marker].
  change (numbered_from 1 (Stage_Steps s))
    with (numbered_from (0 + 1) (Stage_Steps s)).
  rewrite filter_app, dry_step_markers_from.
  cbn [filter is_position_marker]. now rewrite app_nil_r.
Qed.

Lemma run_markers_from (stages : list Stage) :
  forall k : nat,
    filter is_position_marker
           (flat_map run_stage_lines (numbered_from (k + 1) stages))
    = flat_map
        (fun ks =>
           RunStage (fst ks + 1) (Stage_Name (snd ks))
           :: map (fun js => RunStep (fst ks + 1) (fst js + 1)
                                     (Step_Name (snd js)) (Step_Type (snd js)))
                  (numbered_from 0 (Stage_Steps (snd ks))))
        (numbered_from k stages).
Proof.
  induction stages as [|s rest IH]; intro k; [reflexivity|].
  rewrite !numbered_from_cons. cbn [flat_map fst snd].
  change (S (k + 1)) with (S k + 1). rewrite filter_app, IH.
  unfold run_stage_lines. cbn [fst snd filter is_position_marker].
  change (numbered_from 1 (Stage_Steps s))
    with (numbered_from (0 + 1) (Stage_Steps s)).
  rewrite filter_app, run_step_markers_from.
  cbn [filter is_position_marker]. now rewrite app_nil_r.
Qed.

Lemma dry_lines_markers_at (p : string) (stages : list Stage) :
  filter is_position_marker (dry_lines p stages)
  = markers_at DryStage DryStep stages.
Proof.
  unfold dry_lines, markers_at. cbn [filter is_position_marker].
  change (numbered_from 1 stages) with (numbered_from (0 + 1) stages).
  rewrite filter_app, dry_markers_from. cbn [filter is_position_marker].
  now rewrite app_nil_r.
Qed.

Lemma run_lines_markers_at (p : string) (stages : list Stage) :
  filter is_position_marker (run_lines p stages)
  = markers_at RunStage RunStep stages.
Proof.
  unfold run_lines, markers_at. cbn [filter is_position_marker].
  change (numbered_from 1 stages) with (numbered_from (0 + 1) stages).
  rewrite filter_app, run_markers_from. cbn [filter is_position_marker].
  now rewrite app_nil_r.
Qed.

(** The first lines of [Run] on a workflow that has a first stage with a
    first step, whatever happens afterwards. *)
Lemma Run_first_lines {W} (r : Runner W) (w : W) (wf : Workflow)
      (stage : Stage) (rest : list Stage) (step : Step) (steps : list Step) :
  Run_load r w = inl wf ->
  Workflow_Stages wf = stage :: rest ->
  Stage_Steps stage = step :: steps ->
  exists tl,
    lines (events (Run r w)) =
    RunStart (path r) :: RunStage 1 (Stage_Name stage)
    :: RunStep 1 1 (Step_Name step) (Step_Type step) :: tl.
Proof.
  intros Hl Hs Hst. rewrite Run_unfold. cbv zeta. rewrite Hl, Hs.
  rewrite Run_stages_cons. cbv zeta. rewrite Hst.
  rewrite Run_steps_cons. cbv zeta.
  repeat match goal with
         | |- context [match val ?x with _ => _ end] =>
             destruct (val x); cbn [val world events]
         end;
    cbn [app]; eexists;
    match goal with
    | |- lines (?a :: ?b :: ?c :: ?d :: ?t) = _ =>
        change (lines (a :: b :: c :: d :: t))
          with (RunStart (path r) :: RunStage (0 + 1) (Stage_Name stage)
                  :: RunStep (0 + 1) (0 + 1) (Step_Name step) (Step_Type step)
                  :: lines t)
    end; reflexivity.
Qed.

Lemma Run_abort_last_line {W} (r : Runner W) (w : W) (wf : Workflow)
      (err : error) :
  Run_load r w = inl wf ->
  val (Run r w) = Some err ->
  exists a stage k step pre,
    nth_error (Workflow_Stages wf) a = Some stage /\
    nth_error (Stage_Steps stage) k = Some step /\
    lines (events (Run r w))
    = (pre ++ [RunStep (a + 1) (k + 1)
                       (Step_Name step) (Step_Type step)])%list.
Proof.
  intros Hl. rewrite Run_unfold. cbv zeta. rewrite Hl.
  pose proof (Run_stages_abort_last r (Workflow_Stages wf) 0) as Hs.
  destruct (val (Run_stages r 0 (Workflow_Stages wf) _)) as [e|] eqn:Hv;
    cbn [val events]; [|discriminate].
  intros _.
  destruct (Hs _ _ Hv) as (a & stage & k & step & e0 & pre
                           & Hn1 & Hn2 & Hli & _).
  exists a, stage, k, step, (RunStart (path r) :: pre).
  split; [exact Hn1|]. split; [exact Hn2|].
  match goal with
  | |- lines (?a :: ?b :: ?t) = _ =>
      change (lines (a :: b :: t)) with (RunStart (path r) :: lines t)
  end.
  rewrite Hli. reflexivity.
Qed.

(** C10. The index in a validation error counts from zero: a violation in
    the stage at position [i] of the list (the first position being 0) is
    reported as "stage i (<name>): ...", and one in the step at position
    [j] as "step j (<name>): ...", so the first stage and step appear as
    "stage 0 (...)" and "step 0 (...)". The markers of [Run] and [DryRun]
    count from one. [DryRun] writes, for every stage and step in declared
    order, the marker that carries the position plus one; [Run] writes
    the same markers, all of them when it returns no error and otherwise
    up to the marker of the step it stopped at. The output of both starts
    with "STAGE 1: <name>" and "STEP 1.1: <name>" for the first stage and
    its first step. *)
Theorem error_indices_from_zero_markers_from_one
        (W : Type) (r : Runner W) (w : W) (wf : Workflow) :
  (forall i stage e,
      nth_error (Workflow_Stages wf) i = Some stage ->
      Forall (fun s => Stage_Validate s = None)
             (firstn i (Workflow_Stages wf)) ->
      Stage_Validate stage = Some e ->
      Workflow_Name wf <> "" ->
      option_map Error (Workflow_Validate wf) =
      Some ("stage " ++ fmt_d_nat i ++ " (" ++ Stage_Name stage ++ "): "
              ++ Error e)) /\
  (forall stage j step e,
      nth_error (Stage_Steps stage) j = Some step ->
      Forall (fun s => Step_Validate s = None)
             (firstn j (Stage_Steps stage)) ->
      Step_Validate step = Some e ->
      Stage_Name stage <> "" ->
      option_map Error (Stage_Validate stage) =
      Some ("step " ++ fmt_d_nat j ++ " (" ++ Step_Name step ++ "): "
              ++ Error e)) /\
  (DryRun_load r w = inl wf ->
   filter is_position_marker (lines (events (DryRun r w)))
   = markers_at DryStage DryStep (Workflow_Stages wf)) /\
  (Run_load r w = inl wf ->
   exists post,
     markers_at RunStage RunStep (Workflow_Stages wf)
     = (filter is_position_marker (lines (events (Run r w))) ++ post)%list /\
     (val (Run r w) = None -> post = []) /\
     (forall err,
         val (Run r w) = Some err ->
         exists a stage k step pre,
           nth_error (Workflow_Stages wf) a = Some stage /\
           nth_error (Stage_Steps stage) k = Some step /\
           lines (events (Run r w))
           = (pre ++ [RunStep (a + 1) (k + 1)
                              (Step_Name step) (Step_Type step)])%list)) /\
  (forall stage rest step steps,
      Workflow_Stages wf = stage :: rest ->
      Stage_Steps stage = step :: steps ->
      (Run_load r w = inl wf ->
       exists tail,
         output (events (Run r w)) =
         "Executing workflow: " ++ path r ++ nl ++ nl
           ++ "=== STAGE 1: " ++ Stage_Name stage ++ " ===" ++ nl
           ++ "STEP 1.1: " ++ Step_Name step ++ " (" ++ Step_Type step ++ ")"
           ++ nl ++ tail) /\
      (DryRun_load r w = inl wf ->
       exists tail,
         output (events (DryRun r w)) =
         "[DRY-RUN] Would execute workflow: " ++ path r ++ nl ++ nl
           ++ "[DRY-RUN] === STAGE 1: " ++ Stage_Name stage ++ " ===" ++ nl
           ++ "[DRY-RUN] STEP 1.1: " ++ Step_Name step
           ++ " (" ++ Step_Type step ++ ")" ++ nl ++ tail) /\
      (forall e,
          Workflow_Name wf <> "" -> Stage_Name stage <> "" ->
          Step_Validate step = Some e ->
          option_map Error (Workflow_Validate wf) =
          Some ("stage 0 (" ++ Stage_Name stage ++ "): step 0 ("
                  ++ Step_Name step ++ "): " ++ Error e))).
Proof.
  assert (Hstage : forall i stage e,
             nth_error (Workflow_Stages wf) i = Some stage ->
             Forall (fun s => Stage_Validate s = None)
                    (firstn i (Workflow_Stages wf)) ->
             Stage_Validate stage = Some e ->
             Workflow_Name wf <> "" ->
             option_map Error (Workflow_Validate wf) =
             Some ("stage " ++ fmt_d_nat i ++ " (" ++ Stage_Name stage ++ "): "
                     ++ Error e)).
  { intros i stage e Hn Hf Hv Hname. unfold Workflow_Validate.
    apply String.eqb_neq in Hname. rewrite Hname.
    assert (Hl : Nat.eqb (length (Workflow_Stages wf)) 0 = false).
    { apply length_eqb_0_false. intro H0. rewrite H0 in Hn.
      now destruct i. }
    rewrite Hl, (Workflow_Validate_stages_at _ 0 i stage e Hn Hf Hv).
    cbn [option_map Errorf_w Error plus].
    do 3 (rewrite ?string_app_assoc; simpl). reflexivity. }
  assert (Hstep : forall stage j step e,
             nth_error (Stage_Steps stage) j = Some step ->
             Forall (fun s => Step_Validate s = None)
                    (firstn j (Stage_Steps stage)) ->
             Step_Validate step = Some e ->
             Stage_Name stage <> "" ->
             Stage_Validate stage =
             Some (Errorf_w ("step " ++ fmt_d_nat j ++ " (" ++ Step_Name step
                               ++ "): ") e)).
  { intros stage j step e Hn Hf Hv Hname. unfold Stage_Validate.
    apply String.eqb_neq in Hname. rewrite Hname.
    assert (Hl : Nat.eqb (length (Stage_Steps stage)) 0 = false).
    { apply length_eqb_0_false. intro H0. rewrite H0 in Hn.
      now destruct j. }
    rewrite Hl. apply (Stage_Validate_steps_at _ 0 j step e Hn Hf Hv). }
  split; [exact Hstage|]. split; [|split; [|split]].
  - intros stage j step e Hn Hf Hv Hname.
    rewrite (Hstep stage j step e Hn Hf Hv Hname).
    cbn [option_map Errorf_w Error].
    do 3 (rewrite ?string_app_assoc; simpl). reflexivity.
  - intro Hl. rewrite (DryRun_lines r w wf Hl). apply dry_lines_markers_at.
  - intro Hl. rewrite <- (run_lines_markers_at (path r)).
    destruct (val (Run r w)) as [err|] eqn:Hv.
    + destruct (Run_lines_prefix r w wf Hl) as (post & Hp).
      exists (filter is_position_marker post).
      split; [now rewrite Hp, filter_app|]. split; [discriminate|].
      intros err' _. apply (Run_abort_last_line r w wf err Hl Hv).
    + destruct (Run_outcome r w wf Hl) as (rest & _ & Ho).
      rewrite Hv in Ho. destruct Ho as (_ & _ & Hli & _).
      exists []. rewrite Hli, app_nil_r.
      split; [reflexivity|]. split; [reflexivity|discriminate].
  - intros stage rest step steps Hs Hst. split; [|split].
    + intro Hl.
      destruct (Run_first_lines r w wf stage rest step steps Hl Hs Hst)
        as (tl & Hli).
      exists (String.concat "" (map render tl)).
      unfold output. rewrite Hli. cbn [map]. rewrite !concat_empty_cons.
      unfold render. change (fmt_d_nat 1) with "1".
      rewrite !string_app_assoc. reflexivity.
    + intro Hl. unfold output. rewrite (DryRun_lines r w wf Hl).
      unfold dry_lines. rewrite Hs, numbered_from_cons. cbn [flat_map].
      unfold dry_stage_lines at 1. cbn [fst snd]. rewrite Hst.
      rewrite numbered_from_cons. cbn [flat_map].
      unfold dry_step_lines at 1. cbn [fst snd app map].
      rewrite !concat_empty_cons. eexists.
      unfold render at 1 2 3. change (fmt_d_nat 1) with "1".
      rewrite !string_app_assoc. reflexivity.
    + intros e Hw Hn Hv.
      assert (Hsv : Stage_Validate stage =
                    Some (Errorf_w ("step " ++ fmt_d_nat 0 ++ " ("
                                      ++ Step_Name step ++ "): ") e)).
      { apply (Hstep stage 0 step e); [now rewrite Hst|constructor| |];
          assumption. }
      rewrite (Hstage 0 stage _ (f_equal (fun l => nth_error l 0) Hs)
                      (Forall_nil _) Hsv Hw).
      cbn [Errorf_w Error]. f_equal.
      do 3 (rewrite ?string_app_assoc; simpl). reflexivity.
Qed.

Lemma error_indices_from_zero_markers_from_one_witness :
  option_map Error (Workflow_Validate dsl_test.workflow_with_invalid_stage) =
  Some "stage 0 (stage2): stage must have at least one step" /\
  filter is_position_marker
         (lines (events (DryRun runner_test.success_runner runner_test.mock0)))
  = [DryStage 1 "build"; DryStep 1 1 "compile" StepTypeExec;
     DryStep 1 2 "wait" StepTypeSleep;
     DryStage 2 "test"; DryStep 2 1 "run-tests" StepTypeExec].
Proof.
  split.
  - apply (proj1 (error_indices_from_zero_markers_from_one
                    runner_test.Mock runner_test.success_runner
                    runner_test.mock0 dsl_test.workflow_with_invalid_stage)
                 0 (mkStage "stage2" [])
                 (errors_New "stage must have at least one step")).
    + reflexivity.
    + constructor.
    + reflexivity.
    + discriminate.
  - rewrite (proj1 (proj2 (proj2 (error_indices_from_zero_markers_from_one
                      runner_test.Mock runner_test.success_runner
                      runner_test.mock0
                      (mkWorkflow "mock-workflow" ""
                                  runner_test.build_test_stages))))).
    + reflexivity.
    + reflexivity.
Defined.
